(** * review_heatmap/heatmap.py: legends, classification and assembly

    A shallow embedding of [HeatmapCreator] (src/review_heatmap/heatmap.py).

    - Python numbers are [PyNum.number]: an [Int] carries a [Z]; a [Float]
      carries a rational and denotes the binary64 value nearest to it
      ([round64], round to nearest, ties to even, 53 significant bits), as
      a float literal does.  A float product is the rounded product of its
      operands, an int operand being converted to a float first.  The
      exponent is unbounded: overflow to infinity and subnormal results are
      not modelled (the products of the program are a legend factor times
      an average of at least 20).
    - Dictionaries keyed by strings are [gmap string _]; [data["stats"]],
      which the code iterates in insertion order, is an association list.
    - A failed subscript raises [KeyError]; fallible code returns [res].
    - [generate] reads and writes attributes of the host object [mw]; it is
      a computation in the monad [M], which threads the [mw] record and
      keeps the writes made before an exception.
    - What the module imports but does not define (templates of [.web],
      [heatmap_modes], [PLATFORM], [json.dumps]) is the class [Host]. *)

From Stdlib Require Import ZArith QArith Qabs Qround Qpower Lqa DecimalString.
From stdpp Require Import gmap strings list fin_maps.

Local Open Scope Z_scope.
Local Open Scope string_scope.
Local Open Scope list_scope.

(** ** Numbers *)

Module PyNum.

Inductive number : Type :=
| Int (z : Z)
| Float (q : Q).

(** *** binary64 rounding of a rational *)

(** [floor (log2 q)] for a positive [q]. *)
Definition ilog2 (q : Q) : Z :=
  let k := Z.log2 (Qnum q) - Z.log2 (Zpos (Qden q)) in
  if Qle_bool (2 ^ k) q then k else k - 1.

(** The integer nearest to [x], ties to the even one. *)
Definition rne (x : Q) : Z :=
  let f := Qfloor x in
  match Qcompare (x - inject_Z f) (1 # 2) with
  | Lt => f
  | Gt => f + 1
  | Eq => if Z.even f then f else f + 1
  end.

(** A positive [q] rounded to 53 significant bits: the mantissa
    [q / 2^e] lies in [2^52, 2^53) and is rounded to an integer. *)
Definition round_pos (q : Q) : Q :=
  let e := ilog2 q - 52 in
  (inject_Z (rne (q * 2 ^ (- e))) * 2 ^ e)%Q.

Definition round64 (q : Q) : Q :=
  match Qnum q with
  | Z0 => 0%Q
  | Zpos _ => round_pos q
  | Zneg _ => (- round_pos (- q))%Q
  end.

(** The unit roundoff, 2^-53, and the constants 2^52 and 2^53. *)
Definition unit_roundoff : Q := 1 # 9007199254740992.
Definition two52 : Q := 4503599627370496%Q.
Definition two53 : Q := 9007199254740992%Q.

(** Bounds on what three roundings in a row can lose or gain. *)
Definition shrink : Q :=
  ((1 - unit_roundoff) * (1 - unit_roundoff) * (1 - unit_roundoff))%Q.
Definition grow : Q :=
  ((1 + unit_roundoff) * (1 + unit_roundoff) * (1 + unit_roundoff))%Q.

(** *** values and operations *)

(** The value a number denotes; comparisons between ints and floats are
    exact in Python, so an int denotes itself. *)
Definition to_Q (n : number) : Q :=
  match n with
  | Int z => inject_Z z
  | Float q => round64 q
  end.

(** [float(n)]: the operand of a float operation. *)
Definition as_float (n : number) : Q :=
  match n with
  | Int z => round64 (inject_Z z)
  | Float q => round64 q
  end.

(** [a * b]: an int, and exact, only when both operands are ints; else
    the float product, rounded when it is read. *)
Definition mul (a b : number) : number :=
  match a, b with
  | Int x, Int y => Int (x * y)
  | _, _ => Float (as_float a * as_float b)
  end.

(** Unary minus. *)
Definition neg (a : number) : number :=
  match a with
  | Int x => Int (- x)
  | Float q => Float (- q)
  end.

(** [abs(a)]. *)
Definition abs (a : number) : number :=
  match a with
  | Int x => Int (Z.abs x)
  | Float q => Float (Qabs q)
  end.

(** [a <= b], [a < b], [a > b] and [a == b] compare the denoted values. *)
Definition leb (a b : number) : bool := Qle_bool (to_Q a) (to_Q b).
Definition ltb (a b : number) : bool := negb (Qle_bool (to_Q b) (to_Q a)).
Definition gtb (a b : number) : bool := ltb b a.
Definition eqb (a b : number) : bool := Qeq_bool (to_Q a) (to_Q b).

Definition lt (a b : number) : Prop := (to_Q a < to_Q b)%Q.
Definition le (a b : number) : Prop := (to_Q a <= to_Q b)%Q.

(** [max(a, b)]: the builtin keeps its first argument unless a later one
    is strictly greater. *)
Definition max (a b : number) : number := if gtb b a then b else a.

(** [str(z)] for an int. *)
Definition str_int (z : Z) : string := NilZero.string_of_int (Z.to_int z).

End PyNum.

Export PyNum.

Arguments round64 : simpl never.
Arguments round_pos : simpl never.

(** ** Exceptions *)

Inductive error : Type :=
| KeyError (key : string)
| IndexError
| HostError (msg : string).

Inductive res (A : Type) : Type :=
| Ok (a : A)
| Raise (e : error).

Arguments Ok {A} a.
Arguments Raise {A} e.

Definition res_bind {A B : Type} (r : res A) (k : A -> res B) : res B :=
  match r with
  | Ok a => k a
  | Raise e => Raise e
  end.

Notation "'try' x <- r ; k" := (res_bind r (fun x => k))
  (at level 10, x pattern, r at level 100, k at level 200,
   format "'[v' 'try'  x  <-  r ; '/' k ']'").

(** [d[k]] on a dict, [t[i]] on a tuple. *)
Definition subscript {A : Type} (d : gmap string A) (k : string) : res A :=
  match d !! k with
  | Some v => Ok v
  | None => Raise (KeyError k)
  end.

Definition item {A : Type} (t : list A) (i : nat) : res A :=
  match t !! i with
  | Some v => Ok v
  | None => Raise IndexError
  end.

Fixpoint assoc {A : Type} (k : string) (d : list (string * A)) : option A :=
  match d with
  | [] => None
  | (k', v) :: rest => if decide (k' = k) then Some v else assoc k rest
  end.

Definition subscript_items {A : Type} (d : list (string * A)) (k : string)
  : res A :=
  match assoc k d with
  | Some v => Ok v
  | None => Raise (KeyError k)
  end.

(** [d.update(other)]: the bindings of [other] prevail. *)
Definition dict_update {A : Type} (d other : gmap string A) : gmap string A :=
  other ∪ d.

(** ** Data *)

#[warnings="-register-all"] Inductive json : Type :=
| JNull
| JBool (b : bool)
| JNum (n : number)
| JStr (s : string)
| JList (l : list json)
| JDict (d : list (string * json)).

(** One entry of [data["stats"]]. *)
Record stat : Type := { s_type : string; s_value : number }.

(** What [ActivityReporter.get_data] returns when it returns data. *)
Record snapshot : Type := {
  stats : list (string * stat);
  start : json;
  stop : json;
  today : json;
  offset : json;
  activity_series : json
}.

Record Profile : Type := { display : gmap string bool; statsvis : bool }.
Record Synced : Type := { colors : string; mode : string }.
Record Config : Type := { profile : Profile; synced : Synced }.

Record mode_preset : Type := {
  domain : json;
  subDomain : json;
  range : json;
  domLabForm : json
}.

(** The value [_maybe_pluralize] returns: [Union[str, float]]. *)
Inductive label : Type :=
| LNum (n : number)
| LStr (s : string).

(** The attributes of [mw] the module writes; [None] before the first
    assignment. *)
Record mw_state : Type := {
  _hmStreakMax : option number;
  _hmStreakCur : option number;
  _hmActivityDailyAvg : option number
}.

(** What the module imports. *)
Class Host : Type := {
  PLATFORM : string;
  heatmap_modes : gmap string mode_preset;
  json_dumps : json -> string;
  (** [str(x)] for a float [x] *)
  float_repr : Q -> string;
  (** [html_main_element.format(content=_, classes=_)] *)
  html_main_element : string -> string -> string;
  html_info_nodata : string;
  (** [html_heatmap.format(options=_, data=_)] *)
  html_heatmap : string -> string -> string;
  (** [html_streak.format( **format_dict )] *)
  html_streak : gmap string label -> res string
}.

Record HeatmapCreator : Type := {
  config : Config;
  whole : bool;
  (** [self.activity.get_data(limhist=_, limfcst=_)] *)
  get_data : option Z -> option Z -> res (option snapshot)
}.

(** ** The monad of [generate] *)

Definition M (A : Type) : Type := mw_state -> res A * mw_state.

Definition ret {A : Type} (a : A) : M A := fun mw => (Ok a, mw).

Definition bind {A B : Type} (m : M A) (k : A -> M B) : M B :=
  fun mw =>
    match m mw with
    | (Ok a, mw') => k a mw'
    | (Raise e, mw') => (Raise e, mw')
    end.

Definition lift {A : Type} (r : res A) : M A := fun mw => (r, mw).

Notation "'do' x <- m ; k" := (bind m (fun x => k))
  (at level 10, x pattern, m at level 100, k at level 200,
   format "'[v' 'do'  x  <-  m ; '/' k ']'").

Definition set_hmStreakMax (v : number) : M unit :=
  fun mw => (Ok tt, {| _hmStreakMax := Some v;
                       _hmStreakCur := _hmStreakCur mw;
                       _hmActivityDailyAvg := _hmActivityDailyAvg mw |}).

Definition set_hmStreakCur (v : number) : M unit :=
  fun mw => (Ok tt, {| _hmStreakMax := _hmStreakMax mw;
                       _hmStreakCur := Some v;
                       _hmActivityDailyAvg := _hmActivityDailyAvg mw |}).

Definition set_hmActivityDailyAvg (v : number) : M unit :=
  fun mw => (Ok tt, {| _hmStreakMax := _hmStreakMax mw;
                       _hmStreakCur := _hmStreakCur mw;
                       _hmActivityDailyAvg := Some v |}).

(** ** Class attributes of [HeatmapCreator] *)

Definition css_colors : list string :=
  [ "rh-col0"; "rh-col11"; "rh-col12"; "rh-col13"; "rh-col14"; "rh-col15";
    "rh-col16"; "rh-col17"; "rh-col18"; "rh-col19"; "rh-col20" ].

(** [[colors[i] for i in indices]] *)
Fixpoint compress_levels (colors : list string) (indices : list nat)
  : res (list string) :=
  match indices with
  | [] => Ok []
  | i :: rest =>
      try c <- item colors i;
      try cs <- compress_levels colors rest;
      Ok (c :: cs)
  end.

(** [list(zip(thresholds, classes))] in the class body.  The indices
    passed to [compress_levels] are in range (lemma [stat_levels_streak]);
    had one not been, the class body would have raised at import. *)
Definition levels_of (thresholds : list Z) (classes : res (list string))
  : list (number * string) :=
  match classes with
  | Ok cs => zip (Int <$> thresholds) cs
  | Raise _ => []
  end.

Definition stat_levels : gmap string (list (number * string)) :=
  {[ "streak" :=
       levels_of [0; 14; 30; 90; 180; 365]
         (compress_levels css_colors [0; 2; 4; 6; 9; 10]%nat);
     "percentage" :=
       levels_of [0; 25; 50; 60; 70; 80; 85; 90; 95; 99] (Ok css_colors) ]}.

Definition legend_factors : list number :=
  [ Float (1 # 8); Float (1 # 4); Float (1 # 2); Float (3 # 4); Int 1;
    Float (5 # 4); Float (3 # 2); Int 2; Int 4 ].

Definition stat_units : gmap string (option string) :=
  {[ "streak" := Some "day"; "percentage" := None; "cards" := Some "card" ]}.

(** ** Methods *)

Section Methods.

Context `{Host}.

Definition str (count : number) : string :=
  match count with
  | Int z => str_int z
  | Float q => float_repr (to_Q count)
  end.

(** [not term] for an [Optional[str]]. *)
Definition falsy (term : option string) : bool :=
  match term with
  | None => true
  | Some "" => true
  | Some _ => false
  end.

Definition _maybe_pluralize (count : number) (term : option string) : label :=
  if falsy term then LNum count
  else
    LStr (str count +:+ " " +:+ default "" term
            +:+ (if gtb (abs count) (Int 1) then "s" else "")).

Definition _dynamic_legend (average : number) : list number :=
  let avg := max (Int 20) average in
  (fun fct => mul fct avg) <$> legend_factors.

Definition _heatmap_legend (legend : list number) : list number :=
  (neg <$> rev legend) ++ [Int 0] ++ legend.

Definition _get_dynamic_legends (average : number)
  : list number * list number :=
  let legend := _dynamic_legend average in
  let stats_legend := [Int 0] ++ legend in
  let heatmap_legend := _heatmap_legend legend in
  (stats_legend, heatmap_legend).

Definition _get_css_classes (self : HeatmapCreator) (view : string)
  : list string :=
  let conf := synced (config self) in
  [ "rh-platform-" +:+ PLATFORM;
    "rh-theme-" +:+ colors conf;
    "rh-mode-" +:+ mode conf;
    "rh-view-" +:+ view ].

Definition _generate_heatmap_elm (self : HeatmapCreator) (data : snapshot)
    (dynamic_legend : list number) : res string :=
  try mode <- subscript heatmap_modes (mode (synced (config self)));
  let options :=
    JDict [ ("domain", domain mode);
            ("subdomain", subDomain mode);
            ("range", range mode);
            ("domLabForm", domLabForm mode);
            ("start", start data);
            ("stop", stop data);
            ("today", today data);
            ("offset", offset data);
            ("legend", JList (JNum <$> dynamic_legend));
            ("whole", JBool (whole self)) ] in
  Ok (html_heatmap (json_dumps options) (json_dumps (activity_series data))).

(** The [for threshold, css_class in levels] loop: [css_class] is the
    loop variable, so it holds the class of the entry the loop stopped
    at, of the last entry when the loop ran to its end, and its value
    before the loop when [levels] is empty. *)
Fixpoint scan_levels (css_class : string) (value : number)
    (levels : list (number * string)) : string :=
  match levels with
  | [] => css_class
  | (threshold, css_class) :: rest =>
      if leb value threshold then css_class
      else scan_levels css_class value rest
  end.

Definition classify (value : number) (levels : list (number * string))
  : res string :=
  try css_class <- item css_colors 0;
  Ok (scan_levels css_class value levels).

(** The table the stats element looks types up in. *)
Definition local_stat_levels (dynamic_legend : list number)
  : gmap string (list (number * string)) :=
  dict_update {[ "cards" := zip dynamic_legend css_colors ]} stat_levels.

(** One iteration over [data["stats"].items()]. *)
Definition stats_entry (levels_of_type : gmap string (list (number * string)))
    (format_dict : gmap string label) (entry : string * stat)
  : res (gmap string label) :=
  let '(name, stat_dict) := entry in
  let stype := s_type stat_dict in
  let value := s_value stat_dict in
  try levels <- subscript levels_of_type stype;
  try css_class <- classify value levels;
  try unit <- subscript stat_units stype;
  let label := _maybe_pluralize value unit in
  Ok (<["text_" +:+ name := label]>
        (<["class_" +:+ name := LStr css_class]> format_dict)).

Fixpoint stats_loop (levels_of_type : gmap string (list (number * string)))
    (format_dict : gmap string label) (entries : list (string * stat))
  : res (gmap string label) :=
  match entries with
  | [] => Ok format_dict
  | entry :: rest =>
      try format_dict <- stats_entry levels_of_type format_dict entry;
      stats_loop levels_of_type format_dict rest
  end.

Definition _generate_stats_elm (data : snapshot)
    (dynamic_legend : list number) : res string :=
  let stat_levels := local_stat_levels dynamic_legend in
  try format_dict <- stats_loop stat_levels ∅ (stats data);
  html_streak format_dict.

(** [data["stats"][name]["value"]] *)
Definition stat_value (data : snapshot) (name : string) : res number :=
  try stat_dict <- subscript_items (stats data) name;
  Ok (s_value stat_dict).

Definition _save_current_perf (data : snapshot) : M unit :=
  do v <- lift (stat_value data "streak_max");
  do _ <- set_hmStreakMax v;
  do v <- lift (stat_value data "streak_cur");
  do _ <- set_hmStreakCur v;
  do v <- lift (stat_value data "activity_daily_avg");
  set_hmActivityDailyAvg v.

(** Lines 106-121 of [generate], run when there is data: the locals
    [heatmap], [stats] and [classes] as line 123 finds them.  Nothing
    here reads or writes [mw]. *)
Definition render_sections (self : HeatmapCreator) (view : string)
    (data : snapshot) : res (string * string * list string) :=
  let prefs := profile (config self) in
  try average <- stat_value data "activity_daily_avg";
  let '(stats_legend, heatmap_legend) := _get_dynamic_legends average in
  let classes := _get_css_classes self view in
  try shown <- subscript (display prefs) view;
  try (heatmap, classes) <-
    (if shown : bool
     then try elm <- _generate_heatmap_elm self data heatmap_legend;
          Ok (elm, classes)
     else Ok ("", classes ++ ["rh-disable-heatmap"]));
  try shown <- subscript (display prefs) view;
  try (stats, classes) <-
    (if shown || statsvis prefs
     then try elm <- _generate_stats_elm data stats_legend;
          Ok (elm, classes)
     else Ok ("", classes ++ ["rh-disable-stats"]));
  Ok (heatmap, stats, classes).

Definition generate (self : HeatmapCreator) (view : string)
    (limhist limfcst : option Z) : M string :=
  do data <- lift (get_data self limhist limfcst);
  match data with
  | None => ret (html_main_element html_info_nodata "")
  | Some data =>
      do (heatmap, stats, classes) <- lift (render_sections self view data);
      do _ <- (if whole self then _save_current_perf data else ret tt);
      ret (html_main_element (heatmap +:+ stats) (String.concat " " classes))
  end.

End Methods.

(** ** Vocabulary of the properties *)

(** A threshold table sorted ascending by threshold. *)
Fixpoint sorted_levels (levels : list (number * string)) : bool :=
  match levels with
  | [] => true
  | (threshold, _) :: rest =>
      match rest with
      | [] => true
      | (next, _) :: _ => leb threshold next && sorted_levels rest
      end
  end.

(** The thresholds of a table that lie strictly below, and at or above, a
    value. *)
Definition below (value : number) (entry : number * string) : Prop :=
  lt entry.1 value.

Definition reaches (value : number) (entry : number * string) : Prop :=
  le value entry.1.

(** The labels of a table all come from [css_colors]. *)
Definition labels_in_colors (levels : list (number * string)) : Prop :=
  Forall (fun entry => entry.2 ∈ css_colors) levels.

(** A list of numbers in which every element is strictly less than every
    later one. *)
Definition strictly_ascending (l : list number) : Prop :=
  forall (i j : nat) (x y : number),
    (i < j)%nat -> l !! i = Some x -> l !! j = Some y -> lt x y.

(** ** A host and two creators to run the methods on *)

Module Sample.

Definition year : mode_preset :=
  {| domain := JStr "year"; subDomain := JStr "day";
     range := JNum (Int 1); domLabForm := JStr "%Y" |}.

Definition show_label (l : label) : string :=
  match l with
  | LNum (Int z) => str_int z
  | LNum (Float _) => "float"
  | LStr s => s
  end.

Definition host : Host :=
  {| PLATFORM := "linux";
     heatmap_modes := {[ "year" := year ]};
     json_dumps := fun j =>
       match j with
       | JDict _ => "{options}"
       | _ => "[activity]"
       end;
     float_repr := fun _ => "float";
     html_main_element := fun content classes =>
       "<div class='" +:+ classes +:+ "'>" +:+ content +:+ "</div>";
     html_info_nodata := "No activity data to show";
     html_heatmap := fun options data =>
       "<heatmap " +:+ options +:+ " " +:+ data +:+ ">";
     html_streak := fun format_dict =>
       match format_dict !! "class_streak_cur",
             format_dict !! "text_streak_cur" with
       | Some c, Some t => Ok ("<stats " +:+ show_label c +:+ " "
                                 +:+ show_label t +:+ ">")
       | None, _ => Raise (KeyError "class_streak_cur")
       | _, None => Raise (KeyError "text_streak_cur")
       end |}.

Definition data : snapshot :=
  {| stats :=
       [ ("streak_max", {| s_type := "streak"; s_value := Int 120 |});
         ("streak_cur", {| s_type := "streak"; s_value := Int 45 |});
         ("pct_days_active",
          {| s_type := "percentage"; s_value := Int 80 |});
         ("activity_daily_avg",
          {| s_type := "cards"; s_value := Int 40 |}) ];
     start := JNum (Int 0);
     stop := JNum (Int 365);
     today := JNum (Int 200);
     offset := JNum (Int 4);
     activity_series := JList [] |}.

Definition conf (shown always : bool) : Config :=
  {| profile := {| display := {[ "deckbrowser" := shown ]};
                   statsvis := always |};
     synced := {| colors := "lime"; mode := "year" |} |}.

Definition creator (shown always in_whole : bool) : HeatmapCreator :=
  {| config := conf shown always;
     whole := in_whole;
     get_data := fun _ _ => Ok (Some data) |}.

Definition creator_nodata (in_whole : bool) : HeatmapCreator :=
  {| config := conf true true;
     whole := in_whole;
     get_data := fun _ _ => Ok None |}.

Definition mw0 : mw_state :=
  {| _hmStreakMax := None; _hmStreakCur := None;
     _hmActivityDailyAvg := None |}.

(** The table of the spec's classification examples. *)
Definition abc : list (number * string) :=
  [ (Int 0, "a"); (Int 25, "b"); (Int 50, "c") ].

End Sample.

(** ** Snapshots and creators for the edge cases *)

Module Edge.

(** A snapshot whose stats lack "streak_cur". *)
Definition data_no_cur : snapshot :=
  {| stats :=
       [ ("streak_max", {| s_type := "streak"; s_value := Int 120 |});
         ("activity_daily_avg",
          {| s_type := "cards"; s_value := Int 40 |}) ];
     start := JNum (Int 0);
     stop := JNum (Int 365);
     today := JNum (Int 200);
     offset := JNum (Int 4);
     activity_series := JList [] |}.

(** A snapshot with a stat of a type no table knows. *)
Definition data_bad_type : snapshot :=
  {| stats :=
       [ ("activity_daily_avg",
          {| s_type := "cards"; s_value := Int 40 |});
         ("retention", {| s_type := "ratio"; s_value := Int 3 |});
         ("streak_cur", {| s_type := "streak"; s_value := Int 45 |}) ];
     start := JNum (Int 0);
     stop := JNum (Int 365);
     today := JNum (Int 200);
     offset := JNum (Int 4);
     activity_series := JList [] |}.

(** A snapshot without the daily average. *)
Definition data_no_avg : snapshot :=
  {| stats :=
       [ ("streak_cur", {| s_type := "streak"; s_value := Int 45 |}) ];
     start := JNum (Int 0);
     stop := JNum (Int 365);
     today := JNum (Int 200);
     offset := JNum (Int 4);
     activity_series := JList [] |}.

Definition creator_of (conf : Config) (in_whole : bool) (d : snapshot)
  : HeatmapCreator :=
  {| config := conf;
     whole := in_whole;
     get_data := fun _ _ => Ok (Some d) |}.

(** A configuration naming a mode preset the host does not have. *)
Definition conf_unknown_mode (shown always : bool) : Config :=
  {| profile := {| display := {[ "deckbrowser" := shown ]};
                   statsvis := always |};
     synced := {| colors := "lime"; mode := "decade" |} |}.

Definition creator_failing : HeatmapCreator :=
  {| config := Sample.conf true true;
     whole := true;
     get_data := fun _ _ => Raise (HostError "corrupted history") |}.

Definition mw1 : mw_state :=
  {| _hmStreakMax := Some (Int 7); _hmStreakCur := Some (Int 3);
     _hmActivityDailyAvg := Some (Int 12) |}.

End Edge.

(** * Properties *)

(** ** Rounding to binary64 *)

Module Rounding.

Local Open Scope Q_scope.

(** *** Powers of two *)
Lemma pow2_pos (e : Z) : 0 < 2 ^ e.
Proof. apply Qpower_0_lt. reflexivity. Qed.

Lemma pow2_add (a b : Z) : 2 ^ (a + b) == 2 ^ a * 2 ^ b.
Proof. apply Qpower_plus. discriminate. Qed.

Lemma pow2_cancel (e : Z) : 2 ^ (- e) * 2 ^ e == 1.
Proof. rewrite <- pow2_add. now replace (- e + e)%Z with 0%Z by lia. Qed.

Lemma pow2_succ (e : Z) : 2 ^ (e + 1) == 2 * 2 ^ e.
Proof. rewrite pow2_add. change (2 ^ 1) with 2. ring. Qed.

Lemma pow2_le (a b : Z) : (a <= b)%Z -> 2 ^ a <= 2 ^ b.
Proof. intros H. apply Qpower_le_compat_l; [exact H | discriminate]. Qed.

Lemma pow2_lt_inv (a b : Z) : 2 ^ a < 2 ^ b -> (a < b)%Z.
Proof. intros H. apply (Qpower_lt_compat_l_inv 2); [exact H | reflexivity]. Qed.

Lemma pow2_Z (a : Z) : (0 <= a)%Z -> inject_Z (2 ^ a) == 2 ^ a.
Proof. intros H. now apply Zpower_Qpower. Qed.

(** *** Rounding to the nearest integer *)
Lemma Qfloor_bounds (x : Q) :
  inject_Z (Qfloor x) <= x /\ x < inject_Z (Qfloor x) + 1.
Proof.
  split; [apply Qfloor_le|].
  pose proof (Qlt_floor x) as H. now rewrite inject_Z_plus in H.
Qed.

Lemma rne_cases (x : Q) :
  let f := Qfloor x in
  (rne x = f /\ x - inject_Z f <= 1 # 2)
  \/ (rne x = (f + 1)%Z /\ 1 # 2 <= x - inject_Z f).
Proof.
  unfold rne. cbv zeta.
  destruct (Qcompare_spec (x - inject_Z (Qfloor x)) (1 # 2)) as [He|Hl|Hg].
  - destruct (Z.even (Qfloor x)); [left | right]; split;
      try reflexivity; rewrite He; apply Qle_refl.
  - left. split; [reflexivity | now apply Qlt_le_weak].
  - right. split; [reflexivity | now apply Qlt_le_weak].
Qed.

Lemma rne_close (x : Q) :
  x - (1 # 2) <= inject_Z (rne x) <= x + (1 # 2).
Proof.
  destruct (Qfloor_bounds x) as [Hlo Hhi].
  destruct (rne_cases x) as [[-> H]|[-> H]].
  - split; lra.
  - rewrite inject_Z_plus. change (inject_Z 1) with 1. split; lra.
Qed.

Lemma Qfloor_unique (x : Q) (n : Z) :
  inject_Z n <= x -> x < inject_Z n + 1 -> Qfloor x = n.
Proof.
  intros Hlo Hhi.
  destruct (Qfloor_bounds x) as [Flo Fhi].
  assert (H1 : inject_Z n < inject_Z (Qfloor x) + 1) by lra.
  assert (H2 : inject_Z (Qfloor x) < inject_Z n + 1) by lra.
  change 1 with (inject_Z 1) in H1, H2.
  rewrite <- inject_Z_plus, <- Zlt_Qlt in H1, H2. lia.
Qed.

Lemma rne_Z (x : Q) (n : Z) : x == inject_Z n -> rne x = n.
Proof.
  intros Hx.
  assert (Hf : Qfloor x = n) by (apply Qfloor_unique; lra).
  unfold rne. rewrite Hf.
  destruct (Qcompare_spec (x - inject_Z n) (1 # 2)) as [He|Hl|Hg];
    [exfalso; lra | reflexivity | exfalso; lra].
Qed.

Lemma rne_mono (x y : Q) : x <= y -> (rne x <= rne y)%Z.
Proof.
  intros Hxy. pose proof (Qfloor_resp_le x y Hxy) as Hf.
  destruct (Z.eq_dec (Qfloor x) (Qfloor y)) as [Heq|Hne].
  - unfold rne. rewrite <- Heq.
    destruct (Qcompare_spec (x - inject_Z (Qfloor x)) (1 # 2)) as [He|Hl|Hg],
             (Qcompare_spec (y - inject_Z (Qfloor x)) (1 # 2)) as [He'|Hl'|Hg'];
      try destruct (Z.even (Qfloor x)); try lia; exfalso; lra.
  - destruct (rne_cases x) as [[-> _]|[-> _]],
             (rne_cases y) as [[-> _]|[-> _]]; lia.
Qed.

Lemma rne_opp (x : Q) : rne (- x) = (- rne x)%Z.
Proof.
  destruct (Qfloor_bounds x) as [Hlo Hhi].
  destruct (Qcompare_spec x (inject_Z (Qfloor x))) as [Hint|Hlt|Hgt].
  - rewrite (rne_Z x (Qfloor x) Hint).
    apply rne_Z. rewrite inject_Z_opp. lra.
  - exfalso. lra.
  - assert (Hi : inject_Z (- Qfloor x - 1) == - inject_Z (Qfloor x) - 1).
    { unfold Z.sub. rewrite inject_Z_plus, inject_Z_opp. reflexivity. }
    assert (Hf : Qfloor (- x) = (- Qfloor x - 1)%Z).
    { apply Qfloor_unique; rewrite Hi; lra. }
    unfold rne. rewrite Hf.
    replace (Z.even (- Qfloor x - 1)) with (negb (Z.even (Qfloor x)))
      by (rewrite Z.even_sub, Z.even_opp; now destruct (Z.even (Qfloor x))).
    destruct (Qcompare_spec (x - inject_Z (Qfloor x)) (1 # 2)) as [He|Hl|Hg],
             (Qcompare_spec (- x - inject_Z (- Qfloor x - 1)) (1 # 2))
               as [He'|Hl'|Hg'];
      rewrite Hi in *;
      try (exfalso; lra); try destruct (Z.even (Qfloor x)); simpl; lia.
Qed.

Lemma rne_proper (x y : Q) : x == y -> rne x = rne y.
Proof.
  intros Hxy. apply Z.le_antisymm; apply rne_mono; rewrite Hxy; apply Qle_refl.
Qed.

(** *** The binary logarithm *)
Lemma Qpos_num (n : Z) (d : positive) : 0 < n # d -> (0 < n)%Z.
Proof. unfold Qlt. simpl. lia. Qed.

Lemma ilog2_spec (q : Q) :
  0 < q -> 2 ^ ilog2 q <= q /\ q < 2 ^ (ilog2 q + 1).
Proof.
  destruct q as [n d]. intros Hq. pose proof (Qpos_num n d Hq) as Hn.
  unfold ilog2. simpl Qnum. simpl Qden.
  set (a := Z.log2 n). set (b := Z.log2 (Z.pos d)).
  assert (Ha0 : (0 <= a)%Z) by apply Z.log2_nonneg.
  assert (Hb0 : (0 <= b)%Z) by apply Z.log2_nonneg.
  destruct (Z.log2_spec n Hn) as [Hal Hah].
  destruct (Z.log2_spec (Z.pos d) ltac:(lia)) as [Hbl Hbh].
  fold a in Hal, Hah. fold b in Hbl, Hbh.
  rewrite <- Z.add_1_r in Hah, Hbh.
  rewrite Zle_Qle in Hal, Hbl. rewrite Zlt_Qlt in Hah, Hbh.
  rewrite pow2_Z in Hal, Hah, Hbl, Hbh by lia.
  set (N := inject_Z n) in *. set (D := inject_Z (Z.pos d)) in *.
  assert (HD : 0 < D) by (eapply Qlt_le_trans; [apply (pow2_pos b) | exact Hbl]).
  assert (HqD : (n # d) * D == N).
  { rewrite Qmake_Qdiv. fold N D. field.
    intros H0. rewrite H0 in HD. exact (Qlt_irrefl 0 HD). }
  set (k := (a - b)%Z).
  assert (Hup : n # d < 2 ^ (k + 1)).
  { apply (Qmult_lt_r _ _ D HD). rewrite HqD.
    eapply Qlt_le_trans; [exact Hah|].
    assert (E : 2 ^ (a + 1) == 2 ^ (k + 1) * 2 ^ b).
    { rewrite <- pow2_add. unfold k.
      now replace (a - b + 1 + b)%Z with (a + 1)%Z by lia. }
    rewrite E. apply Qmult_le_l; [apply pow2_pos | exact Hbl]. }
  assert (Hlow : 2 ^ (k - 1) < n # d).
  { apply (Qmult_lt_r _ _ D HD). rewrite HqD.
    eapply Qlt_le_trans; [|exact Hal].
    assert (E : 2 ^ a == 2 ^ (k - 1) * 2 ^ (b + 1)).
    { rewrite <- pow2_add. unfold k.
      now replace (a - b - 1 + (b + 1))%Z with a by lia. }
    rewrite E. apply Qmult_lt_l; [apply pow2_pos | exact Hbh]. }
  destruct (Qle_bool (2 ^ k) (n # d)) eqn:Hb.
  - apply Qle_bool_iff in Hb. now split.
  - split; [now apply Qlt_le_weak|].
    replace (k - 1 + 1)%Z with k by lia.
    apply Qnot_le_lt. intros Hle. apply Qle_bool_iff in Hle. congruence.
Qed.

Lemma ilog2_unique (q : Q) (L : Z) :
  0 < q -> 2 ^ L <= q -> q < 2 ^ (L + 1) -> ilog2 q = L.
Proof.
  intros Hq Hlo Hhi. destruct (ilog2_spec q Hq) as [Slo Shi].
  assert (H1 : (L < ilog2 q + 1)%Z)
    by (apply pow2_lt_inv; eapply Qle_lt_trans; eassumption).
  assert (H2 : (ilog2 q < L + 1)%Z)
    by (apply pow2_lt_inv; eapply Qle_lt_trans; eassumption).
  lia.
Qed.

Lemma ilog2_mono (p q : Q) : 0 < p -> p <= q -> (ilog2 p <= ilog2 q)%Z.
Proof.
  intros Hp Hpq. assert (Hq : 0 < q) by (eapply Qlt_le_trans; eassumption).
  destruct (ilog2_spec p Hp) as [Plo _]. destruct (ilog2_spec q Hq) as [_ Qhi].
  assert (H : (ilog2 p < ilog2 q + 1)%Z).
  { apply pow2_lt_inv. eapply Qle_lt_trans; [exact Plo|].
    eapply Qle_lt_trans; eassumption. }
  lia.
Qed.

(** *** The mantissa and the relative error *)
Lemma pow2_52 : 2 ^ 52 == two52.
Proof. reflexivity. Qed.

Lemma pow2_53 : 2 ^ 53 == two53.
Proof. reflexivity. Qed.

Lemma scale_back (q : Q) (e : Z) : q * 2 ^ (- e) * 2 ^ e == q.
Proof. rewrite <- Qmult_assoc, pow2_cancel. ring. Qed.

Lemma mantissa_range (q : Q) :
  0 < q ->
  two52 <= q * 2 ^ (- (ilog2 q - 52)) /\ q * 2 ^ (- (ilog2 q - 52)) < two53.
Proof.
  intros Hq. destruct (ilog2_spec q Hq) as [Hlo Hhi].
  set (L := ilog2 q) in *. pose proof (pow2_pos (- (L - 52))) as HP.
  split.
  - assert (E : two52 == 2 ^ L * 2 ^ (- (L - 52))).
    { rewrite <- pow2_add, <- pow2_52.
      now replace (L + - (L - 52))%Z with 52%Z by lia. }
    rewrite E. now apply Qmult_le_r.
  - assert (E : two53 == 2 ^ (L + 1) * 2 ^ (- (L - 52))).
    { rewrite <- pow2_add, <- pow2_53.
      now replace (L + 1 + - (L - 52))%Z with 53%Z by lia. }
    rewrite E. now apply Qmult_lt_r.
Qed.

Lemma rne_range (x : Q) :
  two52 <= x -> x <= two53 -> (2 ^ 52 <= rne x <= 2 ^ 53)%Z.
Proof.
  intros Hlo Hhi.
  pose proof (rne_mono _ _ Hlo) as H1. pose proof (rne_mono _ _ Hhi) as H2.
  rewrite (rne_Z two52 (2 ^ 52)%Z) in H1 by reflexivity.
  rewrite (rne_Z two53 (2 ^ 53)%Z) in H2 by reflexivity.
  now split.
Qed.

Lemma round_pos_bounds (q : Q) :
  0 < q -> (1 - unit_roundoff) * q <= round_pos q /\ round_pos q <= (1 + unit_roundoff) * q.
Proof.
  intros Hq. unfold round_pos. cbv zeta.
  set (e := (ilog2 q - 52)%Z).
  destruct (mantissa_range q Hq) as [Hlo Hhi]. fold e in Hlo, Hhi.
  pose proof (scale_back q e) as Hback.
  set (x := q * 2 ^ (- e)) in *.
  destruct (rne_close x) as [Clo Chi].
  pose proof (pow2_pos e) as HP.
  unfold two52, unit_roundoff in *.
  split.
  - rewrite <- Hback at 1. rewrite Qmult_assoc. apply Qmult_le_r; [exact HP|]. lra.
  - rewrite <- Hback at 1. rewrite Qmult_assoc. apply Qmult_le_r; [exact HP|]. lra.
Qed.

Lemma round_pos_pos (q : Q) : 0 < q -> 0 < round_pos q.
Proof.
  intros Hq. destruct (round_pos_bounds q Hq) as [Hlo _].
  eapply Qlt_le_trans; [|exact Hlo].
  apply Qmult_lt_0_compat; [reflexivity | exact Hq].
Qed.

Lemma round_pos_range (q : Q) :
  0 < q -> 2 ^ ilog2 q <= round_pos q /\ round_pos q <= 2 ^ (ilog2 q + 1).
Proof.
  intros Hq. unfold round_pos. cbv zeta.
  set (L := ilog2 q). set (e := (L - 52)%Z).
  destruct (mantissa_range q Hq) as [Hlo Hhi]. fold L e in Hlo, Hhi.
  apply Qlt_le_weak in Hhi.
  destruct (rne_range _ Hlo Hhi) as [Mlo Mhi].
  rewrite Zle_Qle in Mlo, Mhi.
  pose proof (pow2_pos e) as HP.
  assert (E1 : 2 ^ L == two52 * 2 ^ e).
  { rewrite <- pow2_52, <- pow2_add. unfold e.
    now replace (52 + (L - 52))%Z with L by lia. }
  assert (E2 : 2 ^ (L + 1) == two53 * 2 ^ e).
  { rewrite <- pow2_53, <- pow2_add. unfold e.
    now replace (53 + (L - 52))%Z with (L + 1)%Z by lia. }
  rewrite E1, E2. split; apply Qmult_le_r; assumption.
Qed.

Lemma round_pos_mono (p q : Q) :
  0 < p -> p <= q -> round_pos p <= round_pos q.
Proof.
  intros Hp Hpq. assert (Hq : 0 < q) by (eapply Qlt_le_trans; eassumption).
  pose proof (ilog2_mono p q Hp Hpq) as HL.
  destruct (Z.eq_dec (ilog2 p) (ilog2 q)) as [Heq|Hne].
  - unfold round_pos. cbv zeta. rewrite Heq.
    apply Qmult_le_r; [apply pow2_pos|].
    rewrite <- Zle_Qle. apply rne_mono.
    apply Qmult_le_r; [apply pow2_pos | exact Hpq].
  - destruct (round_pos_range p Hp) as [_ Php].
    destruct (round_pos_range q Hq) as [Hql _].
    eapply Qle_trans; [exact Php|]. eapply Qle_trans; [|exact Hql].
    apply pow2_le. lia.
Qed.

Lemma round_pos_exact (m e : Z) :
  (2 ^ 52 <= m <= 2 ^ 53)%Z ->
  round_pos (inject_Z m * 2 ^ e) == inject_Z m * 2 ^ e.
Proof.
  intros [Hlo Hhi]. pose proof (pow2_pos e) as HP.
  assert (Hm : two52 <= inject_Z m) by (now rewrite Zle_Qle in Hlo).
  assert (Hm' : inject_Z m <= two53) by (now rewrite Zle_Qle in Hhi).
  assert (Hq : 0 < inject_Z m * 2 ^ e).
  { apply Qmult_lt_0_compat; [|exact HP].
    eapply Qlt_le_trans; [|exact Hm]. reflexivity. }
  destruct (Z.eq_dec m (2 ^ 53)%Z) as [->|Hne].
  - assert (HL : ilog2 (inject_Z (2 ^ 53)%Z * 2 ^ e) = (e + 53)%Z).
    { apply ilog2_unique; [exact Hq| |].
      - rewrite (Z.add_comm e 53), pow2_add, pow2_53. apply Qle_refl.
      - replace (e + 53 + 1)%Z with (54 + e)%Z by lia. rewrite pow2_add.
        apply Qmult_lt_r; [exact HP | reflexivity]. }
    unfold round_pos. cbv zeta. rewrite HL.
    replace (e + 53 - 52)%Z with (e + 1)%Z by lia.
    rewrite (rne_Z _ (2 ^ 52)%Z).
    + rewrite pow2_succ. change (inject_Z (2 ^ 53)%Z) with (2 * inject_Z (2 ^ 52)%Z).
      ring.
    + rewrite <- Qmult_assoc, <- pow2_add.
      replace (e + - (e + 1))%Z with (-1)%Z by lia. reflexivity.
  - assert (Hlt : inject_Z m < two53).
    { change two53 with (inject_Z (2 ^ 53)%Z). rewrite <- Zlt_Qlt. lia. }
    assert (HL : ilog2 (inject_Z m * 2 ^ e) = (e + 52)%Z).
    { apply ilog2_unique; [exact Hq| |].
      - rewrite (Z.add_comm e 52), pow2_add, pow2_52.
        now apply Qmult_le_r.
      - replace (e + 52 + 1)%Z with (53 + e)%Z by lia.
        rewrite pow2_add, pow2_53. now apply Qmult_lt_r. }
    unfold round_pos. cbv zeta. rewrite HL.
    replace (e + 52 - 52)%Z with e by lia.
    rewrite (rne_Z _ m); [reflexivity|].
    rewrite <- Qmult_assoc, <- pow2_add.
    replace (e + - e)%Z with 0%Z by lia. change (2 ^ 0) with 1. ring.
Qed.

Lemma round_pos_proper (p q : Q) :
  0 < p -> p == q -> round_pos p == round_pos q.
Proof.
  intros Hp Hpq. assert (Hq : 0 < q) by now rewrite <- Hpq.
  apply Qle_antisym; apply round_pos_mono; try assumption;
    rewrite Hpq; apply Qle_refl.
Qed.

Lemma round_pos_idem (q : Q) :
  0 < q -> round_pos (round_pos q) == round_pos q.
Proof.
  intros Hq. unfold round_pos at 2 3. cbv zeta.
  apply round_pos_exact.
  destruct (mantissa_range q Hq) as [Hlo Hhi]. apply Qlt_le_weak in Hhi.
  exact (rne_range _ Hlo Hhi).
Qed.

Lemma round_pos_scale (q : Q) (j : Z) :
  0 < q -> round_pos (2 ^ j * q) == 2 ^ j * round_pos q.
Proof.
  intros Hq. pose proof (pow2_pos j) as HJ.
  assert (Hjq : 0 < 2 ^ j * q) by now apply Qmult_lt_0_compat.
  destruct (ilog2_spec q Hq) as [Hlo Hhi].
  assert (HL : ilog2 (2 ^ j * q) = (j + ilog2 q)%Z).
  { apply ilog2_unique; [exact Hjq| |].
    - rewrite pow2_add. now apply Qmult_le_l.
    - rewrite <- Z.add_assoc, pow2_add. now apply Qmult_lt_l. }
  unfold round_pos. cbv zeta. rewrite HL.
  set (e := (ilog2 q - 52)%Z).
  replace (j + ilog2 q - 52)%Z with (j + e)%Z by (unfold e; lia).
  rewrite (rne_proper (2 ^ j * q * 2 ^ (- (j + e))) (q * 2 ^ (- e))).
  - rewrite pow2_add. ring.
  - replace (- (j + e))%Z with (- j + - e)%Z by lia.
    rewrite pow2_add. pose proof (pow2_cancel j) as Hc.
    rewrite <- (Qmult_1_l (q * 2 ^ (- e))), <- Hc. ring.
Qed.

(** *** [round64] *)
Lemma round64_pos (q : Q) : 0 < q -> round64 q = round_pos q.
Proof.
  destruct q as [[|n|n] d]; intros Hq; try reflexivity;
    apply Qpos_num in Hq; lia.
Qed.

Lemma round64_neg (q : Q) : q < 0 -> round64 q = - round_pos (- q).
Proof.
  destruct q as [[|n|n] d]; intros Hq; try reflexivity;
    unfold Qlt in Hq; simpl in Hq; lia.
Qed.

Lemma round64_zero (q : Q) : q == 0 -> round64 q = 0.
Proof.
  destruct q as [[|n|n] d]; intros Hq; try reflexivity;
    unfold Qeq in Hq; simpl in Hq; lia.
Qed.

Lemma round64_opp (q : Q) : round64 (- q) == - round64 q.
Proof.
  destruct q as [[|n|n] d]; unfold round64; simpl Qnum.
  - reflexivity.
  - reflexivity.
  - change (round_pos (Z.pos n # d) == - - round_pos (Z.pos n # d)).
    now rewrite Qopp_opp.
Qed.

Lemma Qsign_cases (q : Q) : q < 0 \/ q == 0 \/ 0 < q.
Proof.
  destruct (Qcompare_spec q 0) as [H|H|H]; auto.
Qed.

Lemma round64_sign (q : Q) :
  (0 < q -> 0 < round64 q) /\ (q < 0 -> round64 q < 0).
Proof.
  split; intros Hq.
  - rewrite (round64_pos q Hq). now apply round_pos_pos.
  - rewrite (round64_neg q Hq).
    assert (Hn : 0 < - q) by lra.
    pose proof (round_pos_pos _ Hn). lra.
Qed.

Lemma round64_mono (p q : Q) : p <= q -> round64 p <= round64 q.
Proof.
  intros Hpq.
  destruct (Qsign_cases p) as [Hp|[Hp|Hp]], (Qsign_cases q) as [Hq|[Hq|Hq]];
    try (exfalso; lra).
  - rewrite (round64_neg p Hp), (round64_neg q Hq).
    assert (H : round_pos (- q) <= round_pos (- p))
      by (apply round_pos_mono; lra).
    lra.
  - rewrite (round64_zero q Hq). apply Qlt_le_weak. now apply round64_sign.
  - apply Qlt_le_weak. eapply Qlt_trans.
    + now apply round64_sign.
    + now apply round64_sign.
  - rewrite (round64_zero p Hp), (round64_zero q Hq). apply Qle_refl.
  - rewrite (round64_zero p Hp). apply Qlt_le_weak. now apply round64_sign.
  - rewrite (round64_pos p Hp), (round64_pos q Hq). now apply round_pos_mono.
Qed.

Lemma round64_proper (p q : Q) : p == q -> round64 p == round64 q.
Proof.
  intros Hpq. apply Qle_antisym; apply round64_mono; rewrite Hpq; apply Qle_refl.
Qed.

Lemma round64_idem (q : Q) : round64 (round64 q) == round64 q.
Proof.
  destruct (Qsign_cases q) as [Hq|[Hq|Hq]].
  - pose proof (proj2 (round64_sign q) Hq) as Hr.
    rewrite (round64_neg _ Hr). rewrite (round64_neg q Hq).
    assert (Hn : 0 < - q) by lra.
    pose proof (round_pos_pos _ Hn) as Hr'.
    rewrite (round_pos_proper (- - round_pos (- q)) (round_pos (- q)));
      [|lra|ring].
    now rewrite round_pos_idem.
  - now rewrite (round64_zero q Hq).
  - rewrite (round64_pos q Hq), (round64_pos _ (round_pos_pos _ Hq)).
    now apply round_pos_idem.
Qed.

Lemma round64_bounds (q : Q) :
  0 <= q -> (1 - unit_roundoff) * q <= round64 q /\ round64 q <= (1 + unit_roundoff) * q.
Proof.
  intros Hq. destruct (Qsign_cases q) as [H|[H|H]]; [exfalso; lra| |].
  - rewrite (round64_zero q H), H. split; lra.
  - rewrite (round64_pos q H). now apply round_pos_bounds.
Qed.

Lemma round64_scale (q : Q) (j : Z) : round64 (2 ^ j * q) == 2 ^ j * round64 q.
Proof.
  pose proof (pow2_pos j) as HJ.
  destruct (Qsign_cases q) as [Hq|[Hq|Hq]].
  - assert (Hn : 0 < - q) by lra.
    assert (Hjq : 2 ^ j * q < 0).
    { rewrite <- (Qmult_0_r (2 ^ j)). now apply Qmult_lt_l. }
    rewrite (round64_neg _ Hjq), (round64_neg q Hq).
    rewrite (round_pos_proper (- (2 ^ j * q)) (2 ^ j * - q)).
    + rewrite (round_pos_scale _ j Hn). ring.
    + lra.
    + ring.
  - rewrite (round64_zero q Hq), (round64_zero (2 ^ j * q)); [ring|].
    rewrite Hq. ring.
  - assert (Hjq : 0 < 2 ^ j * q) by now apply Qmult_lt_0_compat.
    rewrite (round64_pos _ Hjq), (round64_pos q Hq).
    now apply round_pos_scale.
Qed.

End Rounding.

Import Rounding.

(** ** Numbers *)

Lemma leb_le (a b : number) : leb a b = true <-> le a b.
Proof. unfold leb, le. apply Qle_bool_iff. Qed.

Lemma ltb_lt (a b : number) : ltb a b = true <-> lt a b.
Proof.
  unfold ltb, lt. rewrite negb_true_iff. split.
  - intros Hb. apply Qnot_le_lt. intros Hle.
    apply Qle_bool_iff in Hle. congruence.
  - intros Hlt. destruct (Qle_bool (to_Q b) (to_Q a)) eqn:Hb; [|reflexivity].
    apply Qle_bool_iff in Hb. exfalso. exact (Qlt_not_le _ _ Hlt Hb).
Qed.

Lemma ltb_ge (a b : number) : ltb a b = false <-> le b a.
Proof.
  unfold ltb, le. rewrite negb_false_iff. apply Qle_bool_iff.
Qed.

Lemma leb_gt (a b : number) : leb a b = false <-> lt b a.
Proof.
  rewrite <- ltb_lt. unfold ltb, leb.
  destruct (Qle_bool (to_Q a) (to_Q b)); simpl; split; congruence.
Qed.

Lemma round64_abs (q : Q) : (round64 (Qabs q) == Qabs (round64 q))%Q.
Proof.
  destruct (Qsign_cases q) as [Hq|[Hq|Hq]].
  - pose proof (proj2 (round64_sign q) Hq) as Hr.
    rewrite (round64_proper (Qabs q) (- q)) by (apply Qabs_neg; lra).
    rewrite round64_opp. symmetry. apply Qabs_neg. lra.
  - rewrite (round64_proper (Qabs q) 0) by (rewrite Hq; reflexivity).
    now rewrite (round64_zero q Hq).
  - pose proof (proj1 (round64_sign q) Hq) as Hr.
    rewrite (round64_proper (Qabs q) q) by (apply Qabs_pos; lra).
    symmetry. apply Qabs_pos. lra.
Qed.

Lemma to_Q_abs (a : number) : (to_Q (abs a) == Qabs (to_Q a))%Q.
Proof.
  destruct a as [z|q].
  - reflexivity.
  - apply round64_abs.
Qed.

Lemma to_Q_neg (a : number) : (to_Q (neg a) == - to_Q a)%Q.
Proof.
  destruct a as [z|q].
  - change (inject_Z (- z) == - inject_Z z)%Q. now rewrite inject_Z_opp.
  - apply round64_opp.
Qed.

(** [float(n)] is within one rounding of the value of [n], and is that
    value when [n] is a float already. *)
Lemma as_float_bounds (a : number) :
  (0 <= to_Q a)%Q ->
  ((1 - unit_roundoff) * to_Q a <= as_float a
   /\ as_float a <= (1 + unit_roundoff) * to_Q a)%Q.
Proof.
  destruct a as [z|q]; simpl; intros Ha.
  - now apply round64_bounds.
  - unfold unit_roundoff. split; lra.
Qed.

Lemma as_float_nonneg (a : number) : (0 <= to_Q a)%Q -> (0 <= as_float a)%Q.
Proof.
  intros Ha. destruct (as_float_bounds a Ha) as [Hlo _].
  unfold unit_roundoff in Hlo. lra.
Qed.

Lemma as_float_mono (a b : number) : le a b -> (as_float a <= as_float b)%Q.
Proof.
  unfold le. destruct a as [x|p], b as [y|q]; simpl; intros Hab.
  - now apply round64_mono.
  - rewrite <- (round64_idem q). now apply round64_mono.
  - rewrite <- (round64_idem p). now apply round64_mono.
  - exact Hab.
Qed.

(** The value of a product: exact for two ints, else the rounded product
    of the operands as floats. *)
Lemma to_Q_mul_int (x y : Z) :
  (to_Q (mul (Int x) (Int y)) == inject_Z x * inject_Z y)%Q.
Proof.
  change (inject_Z (x * y) == inject_Z x * inject_Z y)%Q.
  now rewrite inject_Z_mult.
Qed.

Lemma to_Q_mul_float (a b : number) :
  (forall x y, a = Int x -> b = Int y -> False) ->
  to_Q (mul a b) = round64 (as_float a * as_float b).
Proof.
  destruct a as [x|p], b as [y|q]; intros Hmixed; try reflexivity.
  exfalso. now apply (Hmixed x y).
Qed.

Lemma shrink_grow : (0 < shrink /\ shrink <= 1 /\ 1 <= grow)%Q.
Proof.
  repeat split; try (apply Qlt_alt; vm_compute; reflexivity);
    apply Qle_bool_iff; vm_compute; reflexivity.
Qed.

(** Every product of non-negative numbers is within three roundings of
    the product of their values. *)
Lemma mul_bounds (f a : number) :
  (0 <= to_Q f)%Q ->
  (0 <= to_Q a)%Q ->
  (shrink * (to_Q f * to_Q a) <= to_Q (mul f a)
   /\ to_Q (mul f a) <= grow * (to_Q f * to_Q a))%Q.
Proof.
  intros Hf Ha.
  assert (Hfa : (0 <= to_Q f * to_Q a)%Q) by now apply Qmult_le_0_compat.
  destruct (as_float_bounds f Hf) as [Flo Fhi].
  destruct (as_float_bounds a Ha) as [Alo Ahi].
  pose proof (as_float_nonneg f Hf) as Fpos.
  pose proof (as_float_nonneg a Ha) as Apos.
  assert (Hround :
            (shrink * (to_Q f * to_Q a) <= round64 (as_float f * as_float a)
             /\ round64 (as_float f * as_float a)
                <= grow * (to_Q f * to_Q a))%Q).
  { assert (Hp : (0 <= as_float f * as_float a)%Q)
      by now apply Qmult_le_0_compat.
    destruct (round64_bounds _ Hp) as [Rlo Rhi].
    set (F := to_Q f) in *. set (A := to_Q a) in *.
    set (F' := as_float f) in *. set (A' := as_float a) in *.
    set (R := round64 (F' * A')) in *.
    unfold shrink, grow, unit_roundoff in *.
    assert (Plo : ((1 - (1 # 9007199254740992)) * F
                   * ((1 - (1 # 9007199254740992)) * A) <= F' * A')%Q).
    { apply Qmult_le_compat_nonneg; split; try assumption; lra. }
    assert (Phi : (F' * A' <= (1 + (1 # 9007199254740992)) * F
                   * ((1 + (1 # 9007199254740992)) * A))%Q).
    { apply Qmult_le_compat_nonneg; split; assumption. }
    set (P := (F' * A')%Q) in *. set (W := (F * A)%Q) in *.
    assert (Plo' : ((1 - (1 # 9007199254740992))
                    * (1 - (1 # 9007199254740992)) * W <= P)%Q).
    { eapply Qle_trans; [|exact Plo]. unfold W. apply Qle_lteq. right. ring. }
    assert (Phi' : (P <= (1 + (1 # 9007199254740992))
                    * (1 + (1 # 9007199254740992)) * W)%Q).
    { eapply Qle_trans; [exact Phi|]. unfold W. apply Qle_lteq. right. ring. }
    split; lra. }
  destruct f as [x|p], a as [y|q]; try exact Hround.
  rewrite to_Q_mul_int. simpl to_Q in *.
  destruct shrink_grow as (_ & Hs & Hg).
  set (W := (inject_Z x * inject_Z y)%Q) in *.
  split.
  - rewrite <- (Qmult_1_l W) at 2. apply Qmult_le_compat_r; assumption.
  - rewrite <- (Qmult_1_l W) at 1. apply Qmult_le_compat_r; assumption.
Qed.

Lemma neg_involutive (a : number) : neg (neg a) = a.
Proof.
  destruct a as [z|[n d]]; simpl.
  - now rewrite Z.opp_involutive.
  - unfold Qopp; simpl. now rewrite Z.opp_involutive.
Qed.

Lemma eq_eqb (a b : number) : a = b -> eqb a b = true.
Proof. intros ->. unfold eqb. apply Qeq_bool_iff. reflexivity. Qed.

Lemma max_floor (a : number) : le a (Int 20) -> max (Int 20) a = Int 20.
Proof.
  intros Hle. unfold max, gtb. apply ltb_ge in Hle. now rewrite Hle.
Qed.

Lemma max_above (a : number) : lt (Int 20) a -> max (Int 20) a = a.
Proof.
  intros Hlt. unfold max, gtb. apply ltb_lt in Hlt. now rewrite Hlt.
Qed.

Lemma max_ge_20 (a : number) : le (Int 20) (max (Int 20) a).
Proof.
  unfold max, gtb. destruct (ltb (Int 20) a) eqn:Hlt.
  - apply ltb_lt in Hlt. now apply Qlt_le_weak.
  - apply Qle_refl.
Qed.

Example str_int_m5 : str_int (-5) = "-5".
Proof. reflexivity. Qed.

Example str_int_120 : str_int 120 = "120".
Proof. reflexivity. Qed.

(** ** The label formatter *)

Section Label.

Context `{Host}.

Lemma falsy_unit (unit : string) : unit <> "" -> falsy (Some unit) = false.
Proof. destruct unit; [congruence | reflexivity]. Qed.

Lemma plural_suffix (count : number) :
  (1 < Qabs (to_Q count))%Q -> gtb (abs count) (Int 1) = true.
Proof.
  intros Hlt. unfold gtb. apply ltb_lt. unfold lt.
  now rewrite to_Q_abs.
Qed.

Lemma singular_suffix (count : number) :
  (Qabs (to_Q count) <= 1)%Q -> gtb (abs count) (Int 1) = false.
Proof.
  intros Hle. unfold gtb. apply ltb_ge. unfold le.
  now rewrite to_Q_abs.
Qed.

(** C1, as the code has it: for a unit that is neither absent nor empty
    the label is "{value} {unit}", with the suffix "s" exactly when
    abs(value) > 1 (so 0, and every value of magnitude at most 1, stays
    singular); an absent or empty unit returns the number unchanged.  In
    particular 0 day, 1 day, 2 days, and 5 for no unit. *)
Theorem maybe_pluralize_spec (count : number) (unit : string) :
  unit <> "" ->
  ((1 < Qabs (to_Q count))%Q ->
     _maybe_pluralize count (Some unit)
     = LStr (str count +:+ " " +:+ unit +:+ "s"))
  /\ ((Qabs (to_Q count) <= 1)%Q ->
     _maybe_pluralize count (Some unit)
     = LStr (str count +:+ " " +:+ unit +:+ ""))
  /\ _maybe_pluralize count None = LNum count
  /\ _maybe_pluralize count (Some "") = LNum count
  /\ _maybe_pluralize (Int 0) (Some "day") = LStr "0 day"
  /\ _maybe_pluralize (Int 1) (Some "day") = LStr "1 day"
  /\ _maybe_pluralize (Int 2) (Some "day") = LStr "2 days"
  /\ _maybe_pluralize (Int (-1)) (Some "day") = LStr "-1 day"
  /\ _maybe_pluralize (Int (-2)) (Some "day") = LStr "-2 days"
  /\ _maybe_pluralize (Int 5) None = LNum (Int 5).
Proof.
  intros Hunit. split; [|split; [|repeat (split; [reflexivity|]); reflexivity]].
  - intros Hlt. unfold _maybe_pluralize.
    rewrite (falsy_unit _ Hunit), (plural_suffix _ Hlt). reflexivity.
  - intros Hle. unfold _maybe_pluralize.
    rewrite (falsy_unit _ Hunit), (singular_suffix _ Hle). reflexivity.
Qed.

End Label.

Lemma maybe_pluralize_spec_witness :
  _maybe_pluralize (H:=Sample.host) (Int 45) (Some "day") = LStr "45 days".
Proof.
  refine (proj1 (maybe_pluralize_spec (H:=Sample.host) (Int 45) "day" _) _).
  - discriminate.
  - reflexivity.
Defined.

(** The claim of C1 fails at 0: abs(0) differs from 1, and the label is
    "0 day". *)
Lemma maybe_pluralize_zero_singular :
  eqb (abs (Int 0)) (Int 1) = false
  /\ _maybe_pluralize (H:=Sample.host) (Int 0) (Some "day") = LStr "0 day"
  /\ _maybe_pluralize (H:=Sample.host) (Int 0) (Some "day") <> LStr "0 days".
Proof. split; [reflexivity | split; [reflexivity | discriminate]]. Qed.

(** ** The classifier *)

Lemma scan_levels_match (css_class0 : string) (value : number)
    (pre post : list (number * string)) (threshold : number)
    (css_class : string) :
  Forall (below value) pre ->
  le value threshold ->
  scan_levels css_class0 value (pre ++ (threshold, css_class) :: post)
  = css_class.
Proof.
  intros Hpre Hle. revert css_class0.
  induction Hpre as [|[t c] pre Hlt _ IH]; intros css_class0; simpl.
  - apply leb_le in Hle. now rewrite Hle.
  - apply leb_gt in Hlt. simpl in Hlt. rewrite Hlt. apply IH.
Qed.

Lemma scan_levels_exhaust (css_class0 : string) (value : number)
    (levels : list (number * string)) :
  Forall (below value) levels ->
  scan_levels css_class0 value levels
  = default css_class0 (snd <$> last levels).
Proof.
  intros Hall. revert css_class0.
  induction Hall as [|[t c] rest Hlt _ IH]; intros css_class0; simpl.
  - reflexivity.
  - apply leb_gt in Hlt. simpl in Hlt. rewrite Hlt, IH, last_cons.
    now destruct (last rest).
Qed.

Lemma sorted_levels_suffix (pre levels : list (number * string)) :
  sorted_levels (pre ++ levels) = true -> sorted_levels levels = true.
Proof.
  induction pre as [|[t c] pre IH]; [easy|].
  simpl. destruct (pre ++ levels) as [|[t' c'] l] eqn:Happ.
  - intros _. destruct pre, levels; simplify_eq; reflexivity.
  - intros [_ Hs]%andb_true_iff. now apply IH.
Qed.

Lemma sorted_levels_reaches (value threshold : number) (css_class : string)
    (post : list (number * string)) :
  sorted_levels ((threshold, css_class) :: post) = true ->
  le value threshold ->
  Forall (reaches value) post.
Proof.
  revert threshold css_class.
  induction post as [|[t' c'] post IH]; intros t c Hs Hle; [constructor|].
  change (leb t t' && sorted_levels ((t', c') :: post) = true) in Hs.
  apply andb_true_iff in Hs as [Htt Hs]. apply leb_le in Htt.
  assert (le value t') by (unfold le in *; eapply Qle_trans; eassumption).
  constructor; [assumption|]. eapply IH; eassumption.
Qed.

Lemma first_match_or_none (value : number) (levels : list (number * string)) :
  (exists pre threshold css_class post,
      levels = pre ++ (threshold, css_class) :: post
      /\ Forall (below value) pre /\ le value threshold)
  \/ Forall (below value) levels.
Proof.
  induction levels as [|[t c] rest IH]; [right; constructor|].
  destruct (leb value t) eqn:Hb.
  - left. exists [], t, c, rest. apply leb_le in Hb. now repeat split.
  - apply leb_gt in Hb. destruct IH as [(pre & t' & c' & post & -> & Hpre & Hle)|Hall].
    + left. exists ((t, c) :: pre), t', c', post.
      repeat split; [now constructor | assumption].
    + right. now constructor.
Qed.

(** C2: on a non-empty table sorted ascending, [classify] returns the
    label of the first entry with value <= threshold, and every later
    entry reaches the value too; a value at or below the first threshold
    takes the first bucket; when no entry has value <= threshold the label
    of the last entry is returned; one of the two cases always applies. *)
Theorem classify_first_match (value : number)
    (levels : list (number * string)) :
  levels <> [] ->
  sorted_levels levels = true ->
  (forall pre threshold css_class post,
      levels = pre ++ (threshold, css_class) :: post ->
      Forall (below value) pre ->
      le value threshold ->
      classify value levels = Ok css_class /\ Forall (reaches value) post)
  /\ (forall threshold css_class rest,
      levels = (threshold, css_class) :: rest ->
      le value threshold ->
      classify value levels = Ok css_class)
  /\ (Forall (below value) levels ->
      exists entry,
        last levels = Some entry /\ classify value levels = Ok entry.2)
  /\ ((exists pre threshold css_class post,
          levels = pre ++ (threshold, css_class) :: post
          /\ Forall (below value) pre /\ le value threshold)
      \/ Forall (below value) levels).
Proof.
  intros Hne Hsorted. split; [|split; [|split]].
  - intros pre t c post -> Hpre Hle. split.
    + unfold classify. simpl. f_equal. now apply scan_levels_match.
    + apply sorted_levels_suffix in Hsorted.
      eapply sorted_levels_reaches; eassumption.
  - intros t c rest -> Hle. unfold classify. simpl. f_equal.
    apply (scan_levels_match "rh-col0" value [] rest t c); [constructor | assumption].
  - intros Hall. destruct (last levels) as [entry|] eqn:Hlast.
    + exists entry. split; [reflexivity|].
      unfold classify. simpl. f_equal.
      rewrite scan_levels_exhaust by assumption. now rewrite Hlast.
    + apply last_None in Hlast. contradiction.
  - apply first_match_or_none.
Qed.

Lemma classify_first_match_witness :
  classify (Int 25) Sample.abc = Ok "b"
  /\ Forall (reaches (Int 25)) [(Int 50, "c")].
Proof.
  refine (proj1 (classify_first_match (Int 25) Sample.abc _ _)
            [(Int 0, "a")] (Int 25) "b" [(Int 50, "c")] _ _ _).
  - discriminate.
  - reflexivity.
  - reflexivity.
  - constructor; [reflexivity | constructor].
  - unfold le. simpl. apply Qle_refl.
Defined.

(** The classification examples of the spec. *)
Example classify_abc :
  classify (Int 0) Sample.abc = Ok "a"
  /\ classify (Int 25) Sample.abc = Ok "b"
  /\ classify (Int 26) Sample.abc = Ok "c"
  /\ classify (Int 999) Sample.abc = Ok "c"
  /\ classify (Int (-5)) Sample.abc = Ok "a".
Proof. repeat (split; [reflexivity|]). reflexivity. Qed.

Lemma scan_levels_closed (css_class0 : string) (value : number)
    (levels : list (number * string)) :
  css_class0 ∈ css_colors ->
  labels_in_colors levels ->
  scan_levels css_class0 value levels ∈ css_colors.
Proof.
  intros H0 Hall. revert css_class0 H0.
  induction Hall as [|[t c] rest Hc _ IH]; intros css_class0 H0; simpl.
  - assumption.
  - destruct (leb value t); [exact Hc | now apply IH].
Qed.

(** C10: [classify] never raises and, on a table (empty or not) whose
    labels come from [css_colors], returns a class of [css_colors]; on the
    empty table it returns the first colour, "rh-col0". *)
Theorem classify_total_closed (value : number)
    (levels : list (number * string)) :
  labels_in_colors levels ->
  (exists css_class,
      classify value levels = Ok css_class /\ css_class ∈ css_colors)
  /\ classify value [] = Ok "rh-col0".
Proof.
  intros Hall. split; [|reflexivity].
  exists (scan_levels "rh-col0" value levels). split; [reflexivity|].
  apply scan_levels_closed; [|assumption].
  unfold css_colors. apply list_elem_of_here.
Qed.

Lemma classify_total_closed_witness :
  exists css_class,
    classify (Int 45) (levels_of [0; 14; 30] (Ok ["rh-col0"; "rh-col12"; "rh-col14"]))
    = Ok css_class
    /\ css_class ∈ css_colors.
Proof.
  refine (proj1 (classify_total_closed (Int 45) _ _)).
  unfold labels_in_colors, css_colors. simpl.
  repeat (constructor; [set_solver|]). constructor.
Defined.

(** ** The legend generator *)

Lemma strictly_ascending_nil : strictly_ascending [].
Proof. intros i j x y _ Hi. discriminate. Qed.

Lemma strictly_ascending_cons (x : number) (l : list number) :
  Forall (lt x) l -> strictly_ascending l -> strictly_ascending (x :: l).
Proof.
  intros Hx Hl [|i] [|j] a b Hij Ha Hb; simpl in *; try lia.
  - injection Ha as <-. rewrite Forall_forall in Hx. apply Hx.
    eapply list_elem_of_lookup_2. eassumption.
  - apply (Hl i j); [lia | assumption | assumption].
Qed.

Lemma strictly_ascending_tail (l : list number) :
  strictly_ascending l -> strictly_ascending (tail l).
Proof.
  destruct l as [|x l]; [easy|]. intros Hl i j a b Hij Ha Hb.
  apply (Hl (S i) (S j)); [lia | assumption | assumption].
Qed.

(** Two factors far enough apart stay in order after the roundings of
    their products with the same positive number. *)
Lemma mul_lt_apart (f g avg : number) :
  lt (Int 0) avg ->
  (0 <= to_Q f)%Q ->
  (0 <= to_Q g)%Q ->
  (grow * to_Q f < shrink * to_Q g)%Q ->
  lt (mul f avg) (mul g avg).
Proof.
  unfold lt. change (to_Q (Int 0)) with 0%Q. intros Havg Hf Hg Hapart.
  assert (Havg' : (0 <= to_Q avg)%Q) by now apply Qlt_le_weak.
  destruct (mul_bounds f avg Hf Havg') as [_ Hhi].
  destruct (mul_bounds g avg Hg Havg') as [Hlo _].
  eapply Qle_lt_trans; [exact Hhi|]. eapply Qlt_le_trans; [|exact Hlo].
  rewrite !Qmult_assoc. now apply Qmult_lt_r.
Qed.

Lemma mul_pos (f avg : number) :
  lt (Int 0) avg -> lt (Int 0) f -> lt (Int 0) (mul f avg).
Proof.
  unfold lt. change (to_Q (Int 0)) with 0%Q. intros Havg Hf.
  destruct (mul_bounds f avg) as [Hlo _]; try now apply Qlt_le_weak.
  eapply Qlt_le_trans; [|exact Hlo].
  destruct shrink_grow as (Hs & _ & _).
  apply Qmult_lt_0_compat; [exact Hs|]. now apply Qmult_lt_0_compat.
Qed.

Lemma legend_factors_apart (i j : nat) (f g : number) :
  (i < j)%nat ->
  legend_factors !! i = Some f ->
  legend_factors !! j = Some g ->
  (0 <= to_Q f /\ 0 <= to_Q g /\ grow * to_Q f < shrink * to_Q g)%Q.
Proof.
  intros Hij Hf Hg.
  do 9 (destruct i as [|i]; [
    do 9 (destruct j as [|j]; [
      first [ lia
            | injection Hf as <-; injection Hg as <-;
              split; [apply Qle_bool_iff; vm_compute; reflexivity|];
              split; [apply Qle_bool_iff; vm_compute; reflexivity|];
              apply Qlt_alt; vm_compute; reflexivity ]|]);
    discriminate Hg|]).
  discriminate Hf.
Qed.

Lemma legend_factors_ascending : strictly_ascending legend_factors.
Proof.
  intros i j f g Hij Hf Hg.
  destruct (legend_factors_apart i j f g Hij Hf Hg) as (Hf0 & Hg0 & Hapart).
  destruct shrink_grow as (_ & Hs & Hgr). unfold lt.
  apply Qle_lt_trans with (grow * to_Q f)%Q.
  - rewrite <- (Qmult_1_l (to_Q f)) at 1. now apply Qmult_le_compat_r.
  - eapply Qlt_le_trans; [exact Hapart|].
    rewrite <- (Qmult_1_l (to_Q g)) at 2. now apply Qmult_le_compat_r.
Qed.

Lemma legend_factors_positive : Forall (lt (Int 0)) legend_factors.
Proof.
  repeat (constructor; [apply Qlt_alt; vm_compute; reflexivity|]).
  constructor.
Qed.

Lemma effective_average_positive (average : number) :
  lt (Int 0) (max (Int 20) average).
Proof.
  unfold lt. eapply Qlt_le_trans; [|apply max_ge_20]. reflexivity.
Qed.

Lemma dynamic_legend_length (average : number) :
  length (_dynamic_legend average) = 9%nat.
Proof. reflexivity. Qed.

Lemma dynamic_legend_ascending (average : number) :
  strictly_ascending (_dynamic_legend average).
Proof.
  intros i j x y Hij Hx Hy. unfold _dynamic_legend in Hx, Hy.
  rewrite list_lookup_fmap in Hx, Hy.
  apply fmap_Some in Hx as (f & Hf & ->).
  apply fmap_Some in Hy as (g & Hg & ->).
  destruct (legend_factors_apart i j f g Hij Hf Hg) as (Hf0 & Hg0 & Hapart).
  apply mul_lt_apart; [apply effective_average_positive | assumption..].
Qed.

Lemma dynamic_legend_positive (average : number) :
  Forall (lt (Int 0)) (_dynamic_legend average).
Proof.
  unfold _dynamic_legend. apply Forall_fmap.
  eapply Forall_impl; [apply legend_factors_positive|].
  intros f Hf. simpl. apply mul_pos; [apply effective_average_positive | exact Hf].
Qed.

Lemma heatmap_legend_symmetric (legend : list number) (i : nat) :
  length legend = 9%nat ->
  (i <= 18)%nat ->
  exists x y,
    _heatmap_legend legend !! i = Some x
    /\ _heatmap_legend legend !! (18 - i)%nat = Some y
    /\ x = neg y.
Proof.
  intros Hlen Hi.
  do 9 (destruct legend as [|? legend]; [discriminate Hlen|]).
  destruct legend; [|discriminate Hlen].
  do 19 (destruct i as [|i];
         [eexists; eexists; split; [reflexivity|]; split; [reflexivity|];
          first [reflexivity | symmetry; apply neg_involutive]|]).
  lia.
Qed.

Lemma legends_shape (average : number) :
  let stats_legend := (_get_dynamic_legends average).1 in
  let heatmap_legend := (_get_dynamic_legends average).2 in
  length stats_legend = 10%nat
  /\ stats_legend !! 0%nat = Some (Int 0)
  /\ strictly_ascending stats_legend
  /\ length heatmap_legend = 19%nat
  /\ (forall i, (i <= 18)%nat ->
      exists x y,
        heatmap_legend !! i = Some x
        /\ heatmap_legend !! (18 - i)%nat = Some y
        /\ x = neg y)
  /\ heatmap_legend !! 9%nat = Some (Int 0).
Proof.
  simpl. repeat split.
  - change (strictly_ascending (Int 0 :: _dynamic_legend average)).
    apply strictly_ascending_cons;
      [apply dynamic_legend_positive | apply dynamic_legend_ascending].
  - intros i Hi. apply heatmap_legend_symmetric; [reflexivity | assumption].
Qed.

(** C3: for every average >= 0 the stats legend has 10 values, starts with
    0 and is strictly ascending (from the zero on, hence after it too); the
    heatmap legend has 19 values, satisfies
    heatmapLegend[i] = -heatmapLegend[18-i] for every index i, and has 0 in
    the middle. *)
Theorem get_dynamic_legends_shape (average : number) :
  le (Int 0) average ->
  let stats_legend := (_get_dynamic_legends average).1 in
  let heatmap_legend := (_get_dynamic_legends average).2 in
  length stats_legend = 10%nat
  /\ stats_legend !! 0%nat = Some (Int 0)
  /\ strictly_ascending stats_legend
  /\ strictly_ascending (tail stats_legend)
  /\ length heatmap_legend = 19%nat
  /\ (forall i, (i <= 18)%nat ->
      exists x y,
        heatmap_legend !! i = Some x
        /\ heatmap_legend !! (18 - i)%nat = Some y
        /\ x = neg y /\ eqb x (neg y) = true)
  /\ heatmap_legend !! 9%nat = Some (Int 0).
Proof.
  intros _ stats_legend heatmap_legend.
  destruct (legends_shape average) as (Hl & H0 & Hasc & Hl' & Hsym & Hmid).
  repeat (split; [assumption|]).
  split; [now apply strictly_ascending_tail|].
  split; [assumption|]. split; [|assumption].
  intros i Hi. destruct (Hsym i Hi) as (x & y & Hx & Hy & Hxy).
  exists x, y. repeat (split; [assumption|]). now apply eq_eqb.
Qed.

Lemma get_dynamic_legends_shape_witness :
  strictly_ascending (_get_dynamic_legends (Int 40)).1.
Proof.
  refine (proj1 (proj2 (proj2 (get_dynamic_legends_shape (Int 40) _)))).
  unfold le. simpl. discriminate.
Defined.

(** C4: the legends see the average only through max(20, average): any two
    averages at most 20 give the same legends, those of 20; so do 5, 0 and
    a negative average. *)
Theorem legends_floor_at_20 (a b : number) :
  le a (Int 20) ->
  le b (Int 20) ->
  _get_dynamic_legends a = _get_dynamic_legends b
  /\ _get_dynamic_legends a = _get_dynamic_legends (Int 20)
  /\ _dynamic_legend a = (fun fct => mul fct (Int 20)) <$> legend_factors
  /\ _get_dynamic_legends (Int 5) = _get_dynamic_legends (Int 20)
  /\ _get_dynamic_legends (Int 0) = _get_dynamic_legends (Int 20)
  /\ _get_dynamic_legends (Int (-3)) = _get_dynamic_legends (Int 20).
Proof.
  intros Ha Hb.
  assert (Hfloor : forall c, le c (Int 20) ->
            _dynamic_legend c = (fun fct => mul fct (Int 20)) <$> legend_factors).
  { intros c Hc. unfold _dynamic_legend. now rewrite (max_floor c Hc). }
  unfold _get_dynamic_legends. rewrite (Hfloor a Ha), (Hfloor b Hb).
  repeat (split; [reflexivity|]). reflexivity.
Qed.

Lemma legends_floor_at_20_witness :
  _get_dynamic_legends (Int 5) = _get_dynamic_legends (Float (25 # 2)).
Proof.
  refine (proj1 (legends_floor_at_20 (Int 5) (Float (25 # 2)) _ _)).
  - unfold le. simpl. discriminate.
  - unfold le. simpl. discriminate.
Defined.

(** Above the floor the average itself scales the factors: with average 40
    the top of the heatmap legend is 4 * 40. *)
Example legend_top_160 :
  last (_get_dynamic_legends (Int 40)).2 = Some (Int 160).
Proof. reflexivity. Qed.

(** Float products are rounded: 0.75 * 47.1 is the double
    2485775888075981 / 2^46, not the rational 35.325. *)
Example rounded_product :
  (to_Q (mul (Float (3 # 4)) (Float (471 # 10)))
   == 2485775888075981 # 70368744177664)%Q
  /\ ~ (to_Q (mul (Float (3 # 4)) (Float (471 # 10))) == 35325 # 1000)%Q.
Proof.
  split.
  - apply Qeq_bool_iff. vm_compute. reflexivity.
  - intros Heq. apply Qeq_bool_iff in Heq. vm_compute in Heq. discriminate.
Qed.

(** An int too large for a double is converted before a float product
    and kept exact in an int product: the legend of 2^53 + 1. *)
Example legend_of_large_int :
  _get_dynamic_legends (Int (2 ^ 53 + 1)) = _get_dynamic_legends (Int 9007199254740993)
  /\ (to_Q (mul (Float (1 # 2)) (Int (2 ^ 53 + 1))) == 4503599627370496)%Q
  /\ to_Q (mul (Int 1) (Int (2 ^ 53 + 1))) = 9007199254740993%Q.
Proof.
  split; [reflexivity|]. split; [|reflexivity].
  apply Qeq_bool_iff. vm_compute. reflexivity.
Qed.

(** Because of the rounding, scaling a value and the average by the same
    factor can change the class: 1.1 * 25 against the table of 1.1 * 20
    is one bucket above 25 against the table of 20. *)
Example scaling_changes_class :
  classify (mul (Float (11 # 10)) (Int 25))
    (zip (_get_dynamic_legends (mul (Float (11 # 10)) (Int 20))).1 css_colors)
  = Ok "rh-col17"
  /\ classify (Int 25) (zip (_get_dynamic_legends (Int 20)).1 css_colors)
     = Ok "rh-col16".
Proof. split; vm_compute; reflexivity. Qed.

(** ** The tables of the stats element *)

Lemma stat_levels_streak :
  stat_levels !! "streak"
  = Some [ (Int 0, "rh-col0"); (Int 14, "rh-col12"); (Int 30, "rh-col14");
           (Int 90, "rh-col16"); (Int 180, "rh-col19"); (Int 365, "rh-col20") ].
Proof. reflexivity. Qed.

Lemma stat_levels_percentage :
  stat_levels !! "percentage"
  = Some [ (Int 0, "rh-col0"); (Int 25, "rh-col11"); (Int 50, "rh-col12");
           (Int 60, "rh-col13"); (Int 70, "rh-col14"); (Int 80, "rh-col15");
           (Int 85, "rh-col16"); (Int 90, "rh-col17"); (Int 95, "rh-col18");
           (Int 99, "rh-col19") ].
Proof. reflexivity. Qed.

Lemma local_stat_levels_cards (dynamic_legend : list number) :
  local_stat_levels dynamic_legend !! "cards"
  = Some (zip dynamic_legend css_colors).
Proof.
  unfold local_stat_levels, dict_update. rewrite lookup_union_r by reflexivity.
  apply lookup_singleton_eq.
Qed.

Lemma local_stat_levels_static (dynamic_legend : list number) (stype : string) :
  stype <> "cards" ->
  local_stat_levels dynamic_legend !! stype = stat_levels !! stype.
Proof.
  intros Hne. unfold local_stat_levels, dict_update.
  rewrite lookup_union, lookup_singleton_ne by congruence.
  now destruct (stat_levels !! stype).
Qed.

(** C8: the table for "cards" is the stats legend zipped with
    [css_colors]: 10 pairs, whose thresholds are the 10 legend values in
    order and whose labels are the first 10 of the 11 colours; the tables
    for "streak" and "percentage" are the static ones. *)
Theorem cards_levels_from_legend (average : number) :
  let stats_legend := (_get_dynamic_legends average).1 in
  length stats_legend = 10%nat
  /\ length css_colors = 11%nat
  /\ (exists cards,
        local_stat_levels stats_legend !! "cards" = Some cards
        /\ cards = zip stats_legend css_colors
        /\ length cards = 10%nat
        /\ cards.*1 = stats_legend
        /\ cards.*2 = take 10 css_colors)
  /\ local_stat_levels stats_legend !! "streak" = stat_levels !! "streak"
  /\ local_stat_levels stats_legend !! "percentage"
     = stat_levels !! "percentage".
Proof.
  intros stats_legend. split; [reflexivity|]. split; [reflexivity|].
  split; [|split; apply local_stat_levels_static; discriminate].
  exists (zip stats_legend css_colors).
  split; [apply local_stat_levels_cards|].
  repeat (split; [reflexivity|]). reflexivity.
Qed.

(** ** The orchestrator *)

Section Generate.

Context `{Host}.

Lemma heatmap_marker_fresh (self : HeatmapCreator) (view : string) :
  "rh-disable-heatmap" ∉ _get_css_classes self view.
Proof.
  unfold _get_css_classes. intros Hin.
  repeat (apply elem_of_cons in Hin as [Hin|Hin];
          [simpl in Hin; discriminate Hin|]).
  inversion Hin.
Qed.

Lemma stats_marker_fresh (self : HeatmapCreator) (view : string) :
  "rh-disable-stats" ∉ _get_css_classes self view.
Proof.
  unfold _get_css_classes. intros Hin.
  repeat (apply elem_of_cons in Hin as [Hin|Hin];
          [simpl in Hin; discriminate Hin|]).
  inversion Hin.
Qed.

(** What a successful run of lines 106-121 computed. *)
Lemma render_sections_inv (self : HeatmapCreator) (view : string)
    (data : snapshot) (heatmap stats : string) (classes : list string) :
  render_sections self view data = Ok (heatmap, stats, classes) ->
  exists (average : number) (shown : bool),
    let prefs := profile (config self) in
    let legends := _get_dynamic_legends average in
    stat_value data "activity_daily_avg" = Ok average
    /\ display prefs !! view = Some shown
    /\ (if shown
        then _generate_heatmap_elm self data legends.2 = Ok heatmap
        else heatmap = "")
    /\ (if shown || statsvis prefs
        then _generate_stats_elm data legends.1 = Ok stats
        else stats = "")
    /\ classes
       = _get_css_classes self view
           ++ (if shown then [] else ["rh-disable-heatmap"] : list string)
           ++ (if shown || statsvis prefs then []
               else ["rh-disable-stats"] : list string).
Proof.
  unfold render_sections. intros Hr.
  destruct (stat_value data "activity_daily_avg") as [average|e]; [|discriminate].
  unfold res_bind at 1 in Hr.
  destruct (_get_dynamic_legends average) as [stats_legend heatmap_legend] eqn:Hleg.
  unfold subscript in Hr.
  destruct (display (profile (config self)) !! view) as [shown|]; [|discriminate].
  exists average, shown. cbv zeta. rewrite Hleg.
  split; [reflexivity|]. split; [reflexivity|].
  unfold res_bind at 1 in Hr.
  destruct shown.
  - destruct (_generate_heatmap_elm self data heatmap_legend) as [h|e] eqn:Hh;
      [|discriminate].
    unfold res_bind in Hr.
    change (true || statsvis (profile (config self))) with true in *.
    destruct (_generate_stats_elm data stats_legend) as [s|e] eqn:Hs;
      [|discriminate].
    injection Hr as <- <- <-.
    simpl. repeat split; assumption.
  - unfold res_bind in Hr.
    change (false || statsvis (profile (config self)))
      with (statsvis (profile (config self))) in *.
    destruct (statsvis (profile (config self))).
    + destruct (_generate_stats_elm data stats_legend) as [s|e] eqn:Hs;
        [|discriminate].
      injection Hr as <- <- <-.
      simpl. repeat split; assumption.
    + injection Hr as <- <- <-. repeat split; reflexivity.
Qed.

(** A marker is in the final classes exactly when its branch appended
    it. *)
Lemma classes_markers (self : HeatmapCreator) (view : string)
    (shown stats_shown : bool) :
  let classes :=
    _get_css_classes self view
      ++ (if shown then [] else ["rh-disable-heatmap"] : list string)
      ++ (if stats_shown then [] else ["rh-disable-stats"] : list string) in
  ("rh-disable-heatmap" ∈ classes <-> shown = false)
  /\ ("rh-disable-stats" ∈ classes <-> stats_shown = false).
Proof.
  cbv zeta. rewrite !elem_of_app.
  pose proof (heatmap_marker_fresh self view) as Hh.
  pose proof (stats_marker_fresh self view) as Hs.
  destruct shown, stats_shown;
    rewrite ?elem_of_nil, ?list_elem_of_singleton;
    (split; (split; [intros [?|[?|?]]|intros ?]));
    first [contradiction | discriminate | reflexivity | tauto].
Qed.

Lemma render_sections_markers (self : HeatmapCreator) (view : string)
    (data : snapshot) (heatmap stats : string) (classes : list string) :
  render_sections self view data = Ok (heatmap, stats, classes) ->
  "rh-disable-stats" ∈ classes -> "rh-disable-heatmap" ∈ classes.
Proof.
  intros Hr Hin.
  apply render_sections_inv in Hr
    as (average & shown & _ & _ & _ & _ & ->).
  cbv zeta in *.
  destruct (classes_markers self view shown
              (shown || statsvis (profile (config self)))) as [Hh Hs].
  apply Hh. apply Hs in Hin. now destruct shown.
Qed.

(** [generate] when the reporter returned data: the sections, then the
    cache write in whole mode, then the payload. *)
Lemma generate_with_data (self : HeatmapCreator) (view : string)
    (limhist limfcst : option Z) (data : snapshot) (mw : mw_state) :
  get_data self limhist limfcst = Ok (Some data) ->
  generate self view limhist limfcst mw
  = match render_sections self view data with
    | Raise e => (Raise e, mw)
    | Ok (heatmap, stats, classes) =>
        let payload :=
          html_main_element (heatmap +:+ stats) (String.concat " " classes) in
        if whole self
        then match _save_current_perf data mw with
             | (Ok _, mw') => (Ok payload, mw')
             | (Raise e, mw') => (Raise e, mw')
             end
        else (Ok payload, mw)
    end.
Proof.
  intros Hdata. unfold generate, bind, lift, ret. rewrite Hdata.
  destruct (render_sections self view data) as [[[h s] c]|e]; [|reflexivity].
  destruct (whole self); [|reflexivity].
  now destruct (_save_current_perf data mw) as [[[]|e] mw'].
Qed.

(** [_save_current_perf] statement by statement: an assignment whose
    right-hand side raises leaves the earlier assignments in place. *)
Lemma save_current_perf_run (data : snapshot) (mw : mw_state) :
  _save_current_perf data mw
  = match stat_value data "streak_max" with
    | Raise e => (Raise e, mw)
    | Ok smax =>
        match stat_value data "streak_cur" with
        | Raise e =>
            (Raise e, {| _hmStreakMax := Some smax;
                         _hmStreakCur := _hmStreakCur mw;
                         _hmActivityDailyAvg := _hmActivityDailyAvg mw |})
        | Ok scur =>
            match stat_value data "activity_daily_avg" with
            | Raise e =>
                (Raise e, {| _hmStreakMax := Some smax;
                             _hmStreakCur := Some scur;
                             _hmActivityDailyAvg := _hmActivityDailyAvg mw |})
            | Ok avg =>
                (Ok tt, {| _hmStreakMax := Some smax;
                           _hmStreakCur := Some scur;
                           _hmActivityDailyAvg := Some avg |})
            end
        end
    end.
Proof.
  unfold _save_current_perf, bind, lift.
  destruct (stat_value data "streak_max"); [|reflexivity]. simpl.
  destruct (stat_value data "streak_cur"); [|reflexivity]. simpl.
  now destruct (stat_value data "activity_daily_avg").
Qed.

Lemma save_current_perf_result (data : snapshot) (mw1 mw2 : mw_state) :
  (_save_current_perf data mw1).1 = (_save_current_perf data mw2).1.
Proof.
  rewrite !save_current_perf_run.
  destruct (stat_value data "streak_max"); [|reflexivity].
  destruct (stat_value data "streak_cur"); [|reflexivity].
  now destruct (stat_value data "activity_daily_avg").
Qed.

Lemma save_current_perf_twice (data : snapshot) (mw : mw_state) :
  _save_current_perf data (_save_current_perf data mw).2
  = _save_current_perf data mw.
Proof.
  rewrite !save_current_perf_run.
  destruct (stat_value data "streak_max"); [|reflexivity].
  destruct (stat_value data "streak_cur"); [|reflexivity].
  now destruct (stat_value data "activity_daily_avg").
Qed.

Lemma generate_result_stateless (self : HeatmapCreator) (view : string)
    (limhist limfcst : option Z) (mw1 mw2 : mw_state) :
  (generate self view limhist limfcst mw1).1
  = (generate self view limhist limfcst mw2).1.
Proof.
  destruct (get_data self limhist limfcst) as [[data|]|e] eqn:Hdata.
  - rewrite !(generate_with_data _ _ _ _ data) by assumption.
    destruct (render_sections self view data) as [[[h s] c]|e]; [|reflexivity].
    destruct (whole self); [|reflexivity].
    pose proof (save_current_perf_result data mw1 mw2) as Hres.
    destruct (_save_current_perf data mw1) as [[[]|e1] s1],
             (_save_current_perf data mw2) as [[[]|e2] s2];
      simpl in *; congruence.
  - unfold generate, bind, lift, ret. now rewrite Hdata.
  - unfold generate, bind, lift, ret. now rewrite Hdata.
Qed.

Lemma generate_twice (self : HeatmapCreator) (view : string)
    (limhist limfcst : option Z) (mw : mw_state) :
  generate self view limhist limfcst (generate self view limhist limfcst mw).2
  = generate self view limhist limfcst mw.
Proof.
  destruct (get_data self limhist limfcst) as [[data|]|e] eqn:Hdata.
  - rewrite !(generate_with_data _ _ _ _ data) by assumption.
    destruct (render_sections self view data) as [[[h s] c]|e]; [|reflexivity].
    cbv zeta. destruct (whole self); [|reflexivity].
    pose proof (save_current_perf_twice data mw) as Htwice.
    destruct (_save_current_perf data mw) as [[[]|e1] s1];
      simpl in *; now rewrite Htwice.
  - unfold generate, bind, lift, ret. now rewrite Hdata.
  - unfold generate, bind, lift, ret. now rewrite Hdata.
Qed.

(** C5, as the code has it: the heatmap section is produced exactly when
    the view's display preference is on, the stats section exactly when
    that preference or the "always show stats" preference is on.  A
    suppressed section contributes the empty string and its marker class
    (rh-disable-heatmap, rh-disable-stats) is appended to the classes; a
    produced one has no marker.  Stats can be produced with the heatmap
    suppressed; whenever stats are suppressed the heatmap is too. *)
Theorem sections_gating (self : HeatmapCreator) (view : string)
    (limhist limfcst : option Z) (data : snapshot) (mw mw' : mw_state)
    (payload : string) :
  get_data self limhist limfcst = Ok (Some data) ->
  generate self view limhist limfcst mw = (Ok payload, mw') ->
  exists (shown : bool) (average : number) (heatmap stats : string)
         (classes : list string),
    let prefs := profile (config self) in
    let legends := _get_dynamic_legends average in
    display prefs !! view = Some shown
    /\ stat_value data "activity_daily_avg" = Ok average
    /\ payload
       = html_main_element (heatmap +:+ stats) (String.concat " " classes)
    /\ (shown = true ->
        _generate_heatmap_elm self data legends.2 = Ok heatmap
        /\ "rh-disable-heatmap" ∉ classes)
    /\ (shown = false -> heatmap = "" /\ "rh-disable-heatmap" ∈ classes)
    /\ (shown || statsvis prefs = true ->
        _generate_stats_elm data legends.1 = Ok stats
        /\ "rh-disable-stats" ∉ classes)
    /\ (shown || statsvis prefs = false ->
        stats = "" /\ "rh-disable-stats" ∈ classes)
    /\ ("rh-disable-stats" ∈ classes -> "rh-disable-heatmap" ∈ classes).
Proof.
  intros Hdata Hgen. rewrite (generate_with_data _ _ _ _ data mw Hdata) in Hgen.
  destruct (render_sections self view data) as [[[h s] c]|e] eqn:Hr;
    [|discriminate].
  assert (Hpayload :
            payload = html_main_element (h +:+ s) (String.concat " " c)).
  { cbv zeta in Hgen. destruct (whole self).
    - destruct (_save_current_perf data mw) as [[[]|e] s1]; congruence.
    - congruence. }
  pose proof (render_sections_markers _ _ _ _ _ _ Hr) as Hmarkers.
  apply render_sections_inv in Hr
    as (average & shown & Havg & Hshown & Hheat & Hstats & Hclasses).
  cbv zeta in *.
  exists shown, average, h, s, c.
  destruct (classes_markers self view shown
              (shown || statsvis (profile (config self)))) as [Hh Hs].
  rewrite <- Hclasses in Hh, Hs.
  repeat (split; [assumption|]). split; [|split; [|split; [|split]]].
  - intros ->. split; [assumption|]. intros Hin%Hh. discriminate.
  - intros ->. split; [assumption|]. now apply Hh.
  - intros Hon. rewrite Hon in Hstats. split; [assumption|].
    intros Hin%Hs. congruence.
  - intros Hoff. rewrite Hoff in Hstats. split; [assumption|]. now apply Hs.
  - assumption.
Qed.

(** C6: when the reporter yields no data, [generate] returns the fixed
    payload, the main element around the "no data" notice with an empty
    class string, whatever the creator, the view, the limits and the
    cache hold; it raises nothing and leaves the cache as it was. *)
Theorem generate_no_data (self : HeatmapCreator) (view : string)
    (limhist limfcst : option Z) (mw : mw_state) :
  get_data self limhist limfcst = Ok None ->
  generate self view limhist limfcst mw
  = (Ok (html_main_element html_info_nodata ""), mw).
Proof.
  intros Hdata. unfold generate, bind, lift, ret. now rewrite Hdata.
Qed.

(** C7, as the code has it: a [generate] call that has data and returns a
    payload leaves the cache holding the three statistics of the snapshot
    when the creator is in whole mode, and leaves the cache as it was
    otherwise; in both cases the payload is the one assembled from the
    sections, and the same for every content of the cache. *)
Theorem cache_written_iff_whole (self : HeatmapCreator) (view : string)
    (limhist limfcst : option Z) (data : snapshot) (mw mw' : mw_state)
    (payload : string) :
  get_data self limhist limfcst = Ok (Some data) ->
  generate self view limhist limfcst mw = (Ok payload, mw') ->
  (whole self = true ->
     exists streak_max streak_cur activity_daily_avg,
       stat_value data "streak_max" = Ok streak_max
       /\ stat_value data "streak_cur" = Ok streak_cur
       /\ stat_value data "activity_daily_avg" = Ok activity_daily_avg
       /\ mw' = {| _hmStreakMax := Some streak_max;
                   _hmStreakCur := Some streak_cur;
                   _hmActivityDailyAvg := Some activity_daily_avg |})
  /\ (whole self = false -> mw' = mw)
  /\ (exists heatmap stats classes,
        render_sections self view data = Ok (heatmap, stats, classes)
        /\ payload
           = html_main_element (heatmap +:+ stats)
               (String.concat " " classes))
  /\ (forall other : mw_state,
        (generate self view limhist limfcst other).1 = Ok payload).
Proof.
  intros Hdata Hgen.
  assert (Hany : forall other : mw_state,
             (generate self view limhist limfcst other).1 = Ok payload).
  { intros other.
    rewrite (generate_result_stateless _ _ _ _ other mw). now rewrite Hgen. }
  rewrite (generate_with_data _ _ _ _ data mw Hdata) in Hgen.
  destruct (render_sections self view data) as [[[h s] c]|e] eqn:Hr;
    [|discriminate].
  cbv zeta in Hgen. split; [|split; [|split]].
  - intros Hwhole. rewrite Hwhole, save_current_perf_run in Hgen.
    destruct (stat_value data "streak_max") as [smax|]; [|discriminate].
    destruct (stat_value data "streak_cur") as [scur|]; [|discriminate].
    destruct (stat_value data "activity_daily_avg") as [avg|]; [|discriminate].
    exists smax, scur, avg. repeat (split; [reflexivity|]). congruence.
  - intros Hwhole. rewrite Hwhole in Hgen. congruence.
  - exists h, s, c. split; [reflexivity|].
    destruct (whole self).
    + destruct (_save_current_perf data mw) as [[[]|e] s1]; congruence.
    + congruence.
  - exact Hany.
Qed.

(** C9: the outcome of [generate] (payload or exception) is the same for
    every content of the cache, and a second call on the state the first
    one left returns the same payload and leaves the same state. *)
Theorem generate_deterministic (self : HeatmapCreator) (view : string)
    (limhist limfcst : option Z) (mw other : mw_state) :
  (generate self view limhist limfcst mw).1
  = (generate self view limhist limfcst other).1
  /\ generate self view limhist limfcst
       (generate self view limhist limfcst mw).2
     = generate self view limhist limfcst mw.
Proof.
  split; [apply generate_result_stateless | apply generate_twice].
Qed.

End Generate.

(** ** The orchestrator on the sample creators *)

Lemma sections_gating_witness :
  exists (heatmap stats : string) (classes : list string),
    (generate (H:=Sample.host) (Sample.creator false true false)
       "deckbrowser" None None Sample.mw0).1
    = Ok (@html_main_element Sample.host (heatmap +:+ stats)
            (String.concat " " classes))
    /\ heatmap = ""
    /\ "rh-disable-heatmap" ∈ classes
    /\ _generate_stats_elm (H:=Sample.host) Sample.data
         (_get_dynamic_legends (Int 40)).1
       = Ok stats
    /\ "rh-disable-stats" ∉ classes.
Proof.
  destruct (sections_gating (H:=Sample.host) (Sample.creator false true false)
              "deckbrowser" None None Sample.data Sample.mw0 Sample.mw0
              _ eq_refl eq_refl)
    as (shown & average & heatmap & stats & classes
        & Hshown & Havg & Hpayload & _ & Hoff & Hon & _ & _).
  cbv zeta in *.
  assert (shown = false) as -> by (vm_compute in Hshown; congruence).
  assert (average = Int 40) as -> by (vm_compute in Havg; congruence).
  exists heatmap, stats, classes.
  destruct (Hoff eq_refl) as [Hempty Hmarker].
  destruct (Hon eq_refl) as [Hstats Hnomarker].
  split; [now rewrite <- Hpayload|]. repeat (split; [assumption|]). assumption.
Defined.

Lemma generate_no_data_witness :
  generate (H:=Sample.host) (Sample.creator_nodata true) "deckbrowser"
    None None Sample.mw0
  = (Ok "<div class=''>No activity data to show</div>", Sample.mw0).
Proof.
  exact (generate_no_data (H:=Sample.host) (Sample.creator_nodata true)
           "deckbrowser" None None Sample.mw0 eq_refl).
Defined.

Lemma cache_written_iff_whole_witness :
  exists streak_max streak_cur activity_daily_avg,
    stat_value Sample.data "streak_max" = Ok streak_max
    /\ stat_value Sample.data "streak_cur" = Ok streak_cur
    /\ stat_value Sample.data "activity_daily_avg" = Ok activity_daily_avg
    /\ (generate (H:=Sample.host) (Sample.creator true true true)
          "deckbrowser" None None Sample.mw0).2
       = {| _hmStreakMax := Some streak_max;
            _hmStreakCur := Some streak_cur;
            _hmActivityDailyAvg := Some activity_daily_avg |}.
Proof.
  exact (proj1 (cache_written_iff_whole (H:=Sample.host)
                  (Sample.creator true true true) "deckbrowser" None None
                  Sample.data Sample.mw0 _ _ eq_refl eq_refl) eq_refl).
Defined.

(** The claim of C7 fails without data: in whole mode a call whose
    reporter yields no data returns its payload normally (lines 103-104)
    and never reaches the write of lines 123-124; the cache keeps the
    three values it held. *)
Lemma whole_mode_no_data_no_write :
  whole (Sample.creator_nodata true) = true
  /\ generate (H:=Sample.host) (Sample.creator_nodata true) "deckbrowser"
       None None Edge.mw1
     = (Ok "<div class=''>No activity data to show</div>", Edge.mw1).
Proof. split; reflexivity. Qed.

(** The claim of C5 fails in one direction: no host, creator, view and
    snapshot make lines 106-121 suppress the stats section (its marker in
    the classes) without suppressing the heatmap section as well. *)
Lemma heatmap_without_stats_impossible :
  ~ exists (H : Host) (self : HeatmapCreator) (view : string)
           (data : snapshot) (heatmap stats : string) (classes : list string),
      render_sections self view data = Ok (heatmap, stats, classes)
      /\ "rh-disable-stats" ∈ classes
      /\ "rh-disable-heatmap" ∉ classes.
Proof.
  intros (H & self & view & data & heatmap & stats & classes
          & Hr & Hstats & Hheat).
  apply Hheat. eapply render_sections_markers; eassumption.
Qed.

(** With the view displayed and "always show stats" off, both sections are
    produced. *)
Example display_on_statsvis_off :
  generate (H:=Sample.host) (Sample.creator true false false) "deckbrowser"
    None None Sample.mw0
  = (Ok ("<div class='rh-platform-linux rh-theme-lime rh-mode-year "
           +:+ "rh-view-deckbrowser'><heatmap {options} [activity]>"
           +:+ "<stats rh-col16 45 days></div>"),
     Sample.mw0).
Proof. reflexivity. Qed.

(** With both preferences off, both sections are empty and both markers
    are present. *)
Example display_off_statsvis_off :
  generate (H:=Sample.host) (Sample.creator false false false) "deckbrowser"
    None None Sample.mw0
  = (Ok ("<div class='rh-platform-linux rh-theme-lime rh-mode-year "
           +:+ "rh-view-deckbrowser rh-disable-heatmap rh-disable-stats'>"
           +:+ "</div>"),
     Sample.mw0).
Proof. reflexivity. Qed.

(** A view the display preferences do not list raises [KeyError]. *)
Example unknown_view_raises :
  generate (H:=Sample.host) (Sample.creator true true true) "overview"
    None None Sample.mw0
  = (Raise (KeyError "overview"), Sample.mw0).
Proof. reflexivity. Qed.

(** * Further properties of the code *)

(** ** [compress_levels] *)

Lemma compress_levels_ok (colors : list string) (indices : list nat) :
  Forall (fun i => (i < length colors)%nat) indices ->
  exists cs,
    compress_levels colors indices = Ok cs
    /\ length cs = length indices
    /\ forall k i, indices !! k = Some i -> cs !! k = colors !! i.
Proof.
  induction 1 as [|i rest Hi _ (cs & Hcs & Hlen & Hget)].
  - exists []. repeat split. intros k i Hk. discriminate.
  - apply lookup_lt_is_Some in Hi as [c Hc].
    exists (c :: cs). simpl. unfold item. rewrite Hc. simpl. rewrite Hcs.
    split; [reflexivity|]. split; [simpl; now rewrite Hlen|].
    intros [|k] j Hk; simpl in *.
    + injection Hk as <-. now rewrite Hc.
    + now apply Hget.
Qed.

Lemma compress_levels_raise (colors : list string) (indices : list nat) :
  Exists (fun i => (length colors <= i)%nat) indices ->
  compress_levels colors indices = Raise IndexError.
Proof.
  induction 1 as [i rest Hi|i rest _ IH]; simpl; unfold item.
  - apply lookup_ge_None in Hi. now rewrite Hi.
  - destruct (colors !! i); [|reflexivity]. simpl. now rewrite IH.
Qed.

(** X1: [compress_levels] picks the colours at the given indices, in
    order, when every index is in range, and raises [IndexError] as soon
    as one is not. *)
Theorem compress_levels_spec (colors : list string) (indices : list nat) :
  (Forall (fun i => (i < length colors)%nat) indices ->
   exists cs,
     compress_levels colors indices = Ok cs
     /\ length cs = length indices
     /\ forall k i, indices !! k = Some i -> cs !! k = colors !! i)
  /\ (Exists (fun i => (length colors <= i)%nat) indices ->
      compress_levels colors indices = Raise IndexError).
Proof.
  split; [apply compress_levels_ok | apply compress_levels_raise].
Qed.

Lemma compress_levels_spec_witness :
  compress_levels css_colors [0; 11; 2]%nat = Raise IndexError.
Proof.
  refine (proj2 (compress_levels_spec css_colors [0; 11; 2]%nat) _).
  apply Exists_cons_tl, Exists_cons_hd. simpl. lia.
Defined.

(** ** More on the classifier *)

Lemma scan_levels_default (css_class0 css_class1 : string) (value : number)
    (levels : list (number * string)) :
  levels <> [] ->
  scan_levels css_class0 value levels = scan_levels css_class1 value levels.
Proof.
  destruct levels as [|[t c] rest]; [congruence|]. reflexivity.
Qed.

Lemma scan_levels_in_table (css_class0 : string) (value : number)
    (levels : list (number * string)) :
  levels <> [] ->
  exists threshold,
    (threshold, scan_levels css_class0 value levels) ∈ levels.
Proof.
  revert css_class0.
  induction levels as [|[t c] rest IH]; intros css_class0 Hne; [congruence|].
  simpl. destruct (leb value t).
  - exists t. apply list_elem_of_here.
  - destruct rest as [|e rest'].
    + exists t. apply list_elem_of_here.
    + destruct (IH c) as [t' Hin]; [discriminate|].
      exists t'. now apply list_elem_of_further.
Qed.

(** X2: on a non-empty table [classify] returns the label of one of the
    table's entries, whatever the value: the class the loop variable was
    initialised with is returned for the empty table only. *)
Theorem classify_label_of_table (value : number)
    (levels : list (number * string)) :
  levels <> [] ->
  (exists threshold css_class,
      (threshold, css_class) ∈ levels
      /\ classify value levels = Ok css_class)
  /\ (forall css_class0 css_class1,
        scan_levels css_class0 value levels
        = scan_levels css_class1 value levels).
Proof.
  intros Hne. split.
  - destruct (scan_levels_in_table "rh-col0" value levels Hne) as [t Hin].
    exists t, (scan_levels "rh-col0" value levels). now split.
  - intros c0 c1. now apply scan_levels_default.
Qed.

Lemma classify_label_of_table_witness :
  exists threshold css_class,
    (threshold, css_class) ∈ Sample.abc
    /\ classify (Int 999) Sample.abc = Ok css_class.
Proof.
  refine (proj1 (classify_label_of_table (Int 999) Sample.abc _)).
  discriminate.
Defined.

(** X3: the classifier is monotone: when a value stops the scan at some
    entry, every smaller or equal value stops it at that entry or an
    earlier one.  No sortedness is needed. *)
Theorem classify_monotone (value value' : number)
    (levels pre post : list (number * string)) (threshold : number)
    (css_class : string) :
  le value value' ->
  levels = pre ++ (threshold, css_class) :: post ->
  Forall (below value') pre ->
  le value' threshold ->
  classify value' levels = Ok css_class
  /\ exists k entry,
       (k <= length pre)%nat
       /\ levels !! k = Some entry
       /\ classify value levels = Ok entry.2.
Proof.
  intros Hle -> Hpre Hreach. split.
  { unfold classify. simpl. f_equal. now apply scan_levels_match. }
  assert (Hv : le value threshold)
    by (unfold le in *; eapply Qle_trans; eassumption).
  destruct (first_match_or_none value pre)
    as [(p1 & t0 & c0 & p2 & -> & Hp1 & Ht0)|Hall].
  - exists (length p1), (t0, c0). split; [rewrite length_app; lia|].
    rewrite <- app_assoc. split.
    + now apply (list_lookup_middle p1 (p2 ++ (threshold, css_class) :: post)).
    + unfold classify. simpl. f_equal. now apply scan_levels_match.
  - exists (length pre), (threshold, css_class). split; [lia|]. split.
    + now apply list_lookup_middle.
    + unfold classify. simpl. f_equal. now apply scan_levels_match.
Qed.

Lemma classify_monotone_witness :
  classify (Int 40) Sample.abc = Ok "c"
  /\ exists k entry,
       (k <= 2)%nat
       /\ Sample.abc !! k = Some entry
       /\ classify (Int 7) Sample.abc = Ok entry.2.
Proof.
  refine (classify_monotone (Int 7) (Int 40) Sample.abc
            [(Int 0, "a"); (Int 25, "b")] [] (Int 50) "c" _ _ _ _).
  - unfold le. simpl. discriminate.
  - reflexivity.
  - repeat (constructor; [reflexivity|]). constructor.
  - unfold le. simpl. discriminate.
Defined.

(** ** The tables the stats element uses *)

Lemma stat_levels_inv (stype : string) (levels : list (number * string)) :
  stat_levels !! stype = Some levels ->
  (stype = "streak" /\ stat_levels !! "streak" = Some levels)
  \/ (stype = "percentage" /\ stat_levels !! "percentage" = Some levels).
Proof.
  intros Hget.
  assert (Hcases : stype = "streak" \/ stype = "percentage").
  { unfold stat_levels in Hget.
    apply lookup_insert_Some in Hget as [[<- _]|[_ Hget]]; [now left|].
    apply lookup_singleton_Some in Hget as [<- _]. now right. }
  destruct Hcases as [->| ->]; [left | right]; now split.
Qed.

Lemma local_stat_levels_inv (dynamic_legend : list number) (stype : string)
    (levels : list (number * string)) :
  local_stat_levels dynamic_legend !! stype = Some levels ->
  (stype = "cards" /\ levels = zip dynamic_legend css_colors)
  \/ (stype = "streak" /\ stat_levels !! "streak" = Some levels)
  \/ (stype = "percentage" /\ stat_levels !! "percentage" = Some levels).
Proof.
  intros Hget. destruct (decide (stype = "cards")) as [->|Hne].
  - rewrite local_stat_levels_cards in Hget. left. split; congruence.
  - rewrite local_stat_levels_static in Hget by assumption.
    right. now apply stat_levels_inv.
Qed.

Lemma stat_units_covers (dynamic_legend : list number) (stype : string) :
  is_Some (local_stat_levels dynamic_legend !! stype) ->
  is_Some (stat_units !! stype).
Proof.
  intros [levels Hget].
  apply local_stat_levels_inv in Hget as [[-> _]|[[-> _]|[-> _]]];
    now eexists.
Qed.

Lemma sorted_levels_zip (l : list number) (classes : list string) :
  strictly_ascending l -> sorted_levels (zip l classes) = true.
Proof.
  revert classes. induction l as [|x l IH]; intros classes Hasc; [reflexivity|].
  destruct classes as [|c classes]; [reflexivity|].
  destruct l as [|y l]; [reflexivity|].
  destruct classes as [|d classes]; [reflexivity|].
  change (leb x y && sorted_levels (zip (y :: l) (d :: classes)) = true).
  apply andb_true_iff. split.
  - apply leb_le. apply Qlt_le_weak. apply (Hasc 0%nat 1%nat x y); [lia | reflexivity | reflexivity].
  - apply IH. now apply (strictly_ascending_tail (x :: y :: l)).
Qed.

Lemma labels_in_colors_zip (l : list number) :
  labels_in_colors (zip l css_colors).
Proof.
  unfold labels_in_colors. apply Forall_forall. intros [t c] Hin.
  now apply elem_of_zip_r in Hin.
Qed.

Lemma labels_in_colors_check (levels : list (number * string)) :
  forallb (fun entry => bool_decide (entry.2 ∈ css_colors)) levels = true ->
  labels_in_colors levels.
Proof.
  unfold labels_in_colors. induction levels as [|e levels IH]; simpl.
  - constructor.
  - intros [He Hl]%andb_true_iff. constructor; [|now apply IH].
    now apply bool_decide_eq_true in He.
Qed.

(** X4: every table the stats element can look a type up in, for every
    average, is non-empty, sorted ascending, starts with threshold 0 and
    class "rh-col0", and has its labels in [css_colors]; the types with a
    table are exactly "cards", "streak" and "percentage", and each of them
    has a unit in [stat_units]. *)
Theorem stats_tables_wellformed (average : number) (stype : string)
    (levels : list (number * string)) :
  local_stat_levels (_get_dynamic_legends average).1 !! stype = Some levels ->
  (stype = "cards" \/ stype = "streak" \/ stype = "percentage")
  /\ (exists rest, levels = (Int 0, "rh-col0") :: rest)
  /\ sorted_levels levels = true
  /\ labels_in_colors levels
  /\ is_Some (stat_units !! stype).
Proof.
  intros Hget.
  assert (Hunit : is_Some (stat_units !! stype))
    by (eapply stat_units_covers; eexists; exact Hget).
  apply local_stat_levels_inv in Hget as [[-> ->]|[[-> Hs]|[-> Hp]]].
  - split; [tauto|]. split; [eexists; reflexivity|]. split; [|split].
    + apply sorted_levels_zip. apply (legends_shape average).
    + apply labels_in_colors_zip.
    + assumption.
  - rewrite stat_levels_streak in Hs. injection Hs as <-.
    split; [tauto|]. split; [eexists; reflexivity|].
    split; [reflexivity|]. split; [|assumption].
    now apply labels_in_colors_check.
  - rewrite stat_levels_percentage in Hp. injection Hp as <-.
    split; [tauto|]. split; [eexists; reflexivity|].
    split; [reflexivity|]. split; [|assumption].
    now apply labels_in_colors_check.
Qed.

Lemma stats_tables_wellformed_witness :
  sorted_levels (zip (_get_dynamic_legends (Int 40)).1 css_colors) = true.
Proof.
  refine (proj1 (proj2 (proj2
            (stats_tables_wellformed (Int 40) "cards" _ _)))).
  apply local_stat_levels_cards.
Defined.

Lemma not_top_color (levels : list (number * string)) (value : number) :
  levels <> [] ->
  Forall (fun entry => entry.2 <> "rh-col20") levels ->
  classify value levels <> Ok "rh-col20".
Proof.
  intros Hne Hall Heq.
  destruct (scan_levels_in_table "rh-col0" value levels Hne) as [t Hin].
  unfold classify in Heq. simpl in Heq. injection Heq as Heq.
  rewrite Heq in Hin. rewrite Forall_forall in Hall.
  now apply (Hall _ Hin).
Qed.

Lemma zip_colors_not_top (l : list number) :
  (length l <= 10)%nat ->
  Forall (fun entry => entry.2 <> "rh-col20") (zip l css_colors).
Proof.
  intros Hlen. apply Forall_forall. intros [t c] Hin.
  apply list_elem_of_lookup in Hin as [i Hi].
  apply lookup_zip_Some in Hi as [Hl Hc].
  apply lookup_lt_Some in Hl. simpl.
  do 10 (destruct i as [|i]; [injection Hc as <-; discriminate|]).
  simpl in Hl. lia.
Qed.

(** X5: what a stat can be classified as, for every average and every
    type with a table: a class of [css_colors] always; "rh-col0" for every
    value at or below 0; and never "rh-col20" for a "cards" or
    "percentage" stat, whose tables pair their ten thresholds with the
    first ten colours only. *)
Theorem stat_class_range (average value : number) (stype : string)
    (levels : list (number * string)) :
  local_stat_levels (_get_dynamic_legends average).1 !! stype = Some levels ->
  (exists css_class,
      classify value levels = Ok css_class /\ css_class ∈ css_colors)
  /\ (le value (Int 0) -> classify value levels = Ok "rh-col0")
  /\ (stype <> "streak" -> classify value levels <> Ok "rh-col20").
Proof.
  intros Hget. split; [|split].
  - exists (scan_levels "rh-col0" value levels). split; [reflexivity|].
    apply scan_levels_closed; [apply list_elem_of_here|].
    apply local_stat_levels_inv in Hget as [[-> ->]|[[-> Hs]|[-> Hp]]].
    + apply labels_in_colors_zip.
    + rewrite stat_levels_streak in Hs. injection Hs as <-.
      now apply labels_in_colors_check.
    + rewrite stat_levels_percentage in Hp. injection Hp as <-.
      now apply labels_in_colors_check.
  - intros Hle.
    assert (Hhead : exists rest, levels = (Int 0, "rh-col0") :: rest).
    { apply local_stat_levels_inv in Hget as [[-> ->]|[[-> Hs]|[-> Hp]]].
      - eexists; reflexivity.
      - rewrite stat_levels_streak in Hs. injection Hs as <-.
        eexists; reflexivity.
      - rewrite stat_levels_percentage in Hp. injection Hp as <-.
        eexists; reflexivity. }
    destruct Hhead as [rest ->]. unfold classify. simpl.
    apply leb_le in Hle. now rewrite Hle.
  - intros Hne.
    apply local_stat_levels_inv in Hget as [[-> ->]|[[-> Hs]|[-> Hp]]].
    + apply not_top_color; [discriminate|].
      apply zip_colors_not_top. simpl. lia.
    + congruence.
    + rewrite stat_levels_percentage in Hp. injection Hp as <-.
      apply not_top_color; [discriminate|].
      repeat (constructor; [discriminate|]). constructor.
Qed.

Lemma stat_class_range_witness :
  classify (Int 100)
    (levels_of [0; 25; 50; 60; 70; 80; 85; 90; 95; 99] (Ok css_colors))
  <> Ok "rh-col20".
Proof.
  refine (proj2 (proj2
            (stat_class_range (Int 40) (Int 100) "percentage" _ _)) _).
  - reflexivity.
  - discriminate.
Defined.

(** ** More on the legends *)

Lemma neg_lt (a b : number) : lt a b -> lt (neg b) (neg a).
Proof. unfold lt. rewrite !to_Q_neg. apply Qopp_lt_compat. Qed.

Lemma neg_negative (a : number) : lt (Int 0) a -> lt (neg a) (Int 0).
Proof. intros Ha. now apply (neg_lt (Int 0) a). Qed.

Lemma lt_trans (a b c : number) : lt a b -> lt b c -> lt a c.
Proof. unfold lt. apply Qlt_trans. Qed.

Lemma strictly_ascending_cons_inv (x : number) (l : list number) :
  strictly_ascending (x :: l) -> Forall (lt x) l /\ strictly_ascending l.
Proof.
  intros Hasc. split.
  - apply Forall_forall. intros y [i Hi]%list_elem_of_lookup_1.
    apply (Hasc 0%nat (S i)); [lia | reflexivity | exact Hi].
  - now apply (strictly_ascending_tail (x :: l)).
Qed.

Lemma strictly_ascending_app (l1 l2 : list number) :
  strictly_ascending l1 ->
  strictly_ascending l2 ->
  (forall x y, x ∈ l1 -> y ∈ l2 -> lt x y) ->
  strictly_ascending (l1 ++ l2).
Proof.
  intros H1 H2 H12 i j x y Hij Hx Hy.
  apply lookup_app_Some in Hx as [Hx|[Hi Hx]],
        Hy as [Hy|[Hj Hy]].
  - exact (H1 i j x y Hij Hx Hy).
  - apply H12; eapply list_elem_of_lookup_2; eassumption.
  - apply lookup_lt_Some in Hy. lia.
  - apply (H2 (i - length l1)%nat (j - length l1)%nat); [lia | assumption..].
Qed.

Lemma elem_of_rev (x : number) (l : list number) : x ∈ rev l <-> x ∈ l.
Proof. rewrite !list_elem_of_In. symmetry. apply in_rev. Qed.

Lemma mirrored_ascending (l : list number) :
  strictly_ascending l -> strictly_ascending (neg <$> rev l).
Proof.
  induction l as [|x l IH]; intros Hasc; [apply strictly_ascending_nil|].
  apply strictly_ascending_cons_inv in Hasc as [Hx Hl].
  simpl. rewrite fmap_app. apply strictly_ascending_app.
  - now apply IH.
  - apply strictly_ascending_cons; [constructor | apply strictly_ascending_nil].
  - intros a b (z & -> & Hz)%list_elem_of_fmap_1 ->%list_elem_of_singleton.
    apply neg_lt. rewrite Forall_forall in Hx. apply Hx.
    now apply elem_of_rev.
Qed.

Lemma heatmap_legend_sorted (legend : list number) :
  strictly_ascending legend ->
  Forall (lt (Int 0)) legend ->
  strictly_ascending (_heatmap_legend legend).
Proof.
  intros Hasc Hpos. rewrite Forall_forall in Hpos.
  unfold _heatmap_legend. apply strictly_ascending_app.
  - now apply mirrored_ascending.
  - apply strictly_ascending_cons; [now apply Forall_forall | assumption].
  - intros a b (z & -> & Hz)%list_elem_of_fmap_1 Hb.
    apply (proj1 (elem_of_rev z legend)) in Hz.
    assert (Hneg : lt (neg z) (Int 0)) by (apply neg_negative, Hpos, Hz).
    apply elem_of_cons in Hb as [->|Hb]; [assumption|].
    eapply lt_trans; [exact Hneg | apply Hpos, Hb].
Qed.

(** X6: for any strictly ascending legend of positive values, the heatmap
    legend built from it (the mirrored negatives, 0, the legend) is
    strictly ascending from end to end, has 2n+1 values and has its 0 at
    index n; so the heatmap legend of every average is strictly
    ascending. *)
Theorem heatmap_legend_ascending (legend : list number) :
  strictly_ascending legend ->
  Forall (lt (Int 0)) legend ->
  strictly_ascending (_heatmap_legend legend)
  /\ length (_heatmap_legend legend) = (2 * length legend + 1)%nat
  /\ _heatmap_legend legend !! length legend = Some (Int 0)
  /\ forall average, strictly_ascending (_get_dynamic_legends average).2.
Proof.
  intros Hasc Hpos. split; [now apply heatmap_legend_sorted|].
  split; [|split].
  - unfold _heatmap_legend.
    rewrite !length_app, length_fmap, length_rev. simpl. lia.
  - unfold _heatmap_legend. rewrite lookup_app_r.
    + rewrite length_fmap, length_rev, Nat.sub_diag. reflexivity.
    + rewrite length_fmap, length_rev. lia.
  - intros average. apply heatmap_legend_sorted;
      [apply dynamic_legend_ascending | apply dynamic_legend_positive].
Qed.

Lemma heatmap_legend_ascending_witness :
  strictly_ascending (_heatmap_legend [Float (1 # 2); Int 3]).
Proof.
  refine (proj1 (heatmap_legend_ascending [Float (1 # 2); Int 3] _ _)).
  - apply strictly_ascending_cons; [repeat constructor|].
    apply strictly_ascending_cons; [constructor | apply strictly_ascending_nil].
  - repeat constructor.
Defined.

Lemma max_mono (a b : number) :
  le a b -> le (max (Int 20) a) (max (Int 20) b).
Proof.
  intros Hab. unfold max, gtb.
  destruct (ltb (Int 20) a) eqn:Ha, (ltb (Int 20) b) eqn:Hb.
  - exact Hab.
  - apply ltb_lt in Ha. apply ltb_ge in Hb. unfold le, lt in *.
    exfalso. apply (Qlt_not_le _ _ Ha). eapply Qle_trans; eassumption.
  - apply ltb_lt in Hb. unfold le, lt in *. now apply Qlt_le_weak.
  - apply Qle_refl.
Qed.

Lemma Qmult_le_nonneg_l (z x y : Q) :
  (0 <= z)%Q -> (x <= y)%Q -> (z * x <= z * y)%Q.
Proof.
  intros Hz Hxy. rewrite (Qmult_comm z x), (Qmult_comm z y).
  now apply Qmult_le_compat_r.
Qed.

Lemma mul_float_mono (c : Q) (x y : number) :
  (0 <= round64 c)%Q -> le x y -> le (mul (Float c) x) (mul (Float c) y).
Proof.
  intros Hc Hxy. unfold le.
  rewrite !to_Q_mul_float by (intros ? ? [=]).
  apply round64_mono. apply Qmult_le_nonneg_l; [exact Hc|].
  now apply as_float_mono.
Qed.

(** Multiplying a float by a power of two is exact. *)
Lemma mul_pow2_float (j : Z) (q : Q) :
  (0 <= j)%Z ->
  (to_Q (mul (Int (2 ^ j)) (Float q)) == inject_Z (2 ^ j) * round64 q)%Q.
Proof.
  intros Hj. rewrite to_Q_mul_float by (intros ? ? _ [=]). simpl as_float.
  assert (Hk : (round64 (inject_Z (2 ^ j)) == 2 ^ j)%Q).
  { rewrite (round64_proper _ (2 ^ j * 1)%Q)
      by (rewrite pow2_Z by exact Hj; ring).
    rewrite round64_scale.
    assert (H1 : (round64 1 == 1)%Q)
      by (apply Qeq_bool_iff; vm_compute; reflexivity).
    rewrite H1. ring. }
  rewrite (round64_proper _ (2 ^ j * round64 q)%Q) by (rewrite Hk; reflexivity).
  rewrite round64_scale, round64_idem, pow2_Z by exact Hj. reflexivity.
Qed.

Lemma mul_pow2_mono (j : Z) (x y : number) :
  (0 <= j)%Z -> le x y -> le (mul (Int (2 ^ j)) x) (mul (Int (2 ^ j)) y).
Proof.
  intros Hj Hxy. unfold le in *.
  assert (Hk : (0 <= inject_Z (2 ^ j))%Q).
  { rewrite pow2_Z by exact Hj. apply Qlt_le_weak, pow2_pos. }
  destruct x as [x|p], y as [y|q];
    rewrite ?to_Q_mul_int, ?mul_pow2_float by exact Hj;
    now apply Qmult_le_nonneg_l.
Qed.

Lemma factor_mono (f x y : number) :
  f ∈ legend_factors -> le x y -> le (mul f x) (mul f y).
Proof.
  intros Hin Hxy. unfold legend_factors in Hin.
  repeat (apply elem_of_cons in Hin as [->|Hin];
          [first [ apply mul_float_mono;
                   [apply Qle_bool_iff; vm_compute; reflexivity | exact Hxy]
                 | apply (mul_pow2_mono 0); [lia | exact Hxy]
                 | apply (mul_pow2_mono 1); [lia | exact Hxy]
                 | apply (mul_pow2_mono 2); [lia | exact Hxy] ]|]).
  inversion Hin.
Qed.

(** X7: the legends grow with the average: for averages a <= b every
    value of the stats legend of a is at most the value of the stats
    legend of b at the same position. *)
Theorem stats_legend_monotone (a b : number) :
  le a b ->
  Forall2 le (_get_dynamic_legends a).1 (_get_dynamic_legends b).1.
Proof.
  intros Hab. simpl. constructor; [apply Qle_refl|].
  unfold _dynamic_legend. apply Forall2_fmap, Forall_Forall2_diag.
  apply Forall_forall. intros f Hf.
  apply factor_mono; [exact Hf | now apply max_mono].
Qed.

Lemma stats_legend_monotone_witness :
  Forall2 le (_get_dynamic_legends (Int 30)).1
             (_get_dynamic_legends (Float (81 # 2))).1.
Proof.
  refine (stats_legend_monotone (Int 30) (Float (81 # 2)) _).
  unfold le. simpl. discriminate.
Defined.

Lemma to_Q_max_above (average : number) :
  le (Int 20) average ->
  (to_Q (max (Int 20) average) == to_Q average)%Q.
Proof.
  intros Hge. unfold max, gtb.
  destruct (ltb (Int 20) average) eqn:Hlt; [reflexivity|].
  apply ltb_ge in Hlt. unfold le in *. now apply Qle_antisym.
Qed.

Lemma scaled_below_average (f average : number) :
  (0 <= to_Q f)%Q ->
  (grow * to_Q f < 1)%Q ->
  le (Int 20) average ->
  lt (mul f (max (Int 20) average)) average.
Proof.
  intros Hf Hsmall Hge.
  pose proof (to_Q_max_above average Hge) as Hmax.
  assert (Hpos : (0 < to_Q average)%Q).
  { unfold le in Hge. eapply Qlt_le_trans; [|exact Hge]. reflexivity. }
  unfold lt.
  destruct (mul_bounds f (max (Int 20) average) Hf) as [_ Hhi].
  { rewrite Hmax. now apply Qlt_le_weak. }
  eapply Qle_lt_trans; [exact Hhi|]. rewrite Hmax, Qmult_assoc.
  rewrite <- (Qmult_1_l (to_Q average)) at 2.
  now apply Qmult_lt_r.
Qed.

(** The threshold of factor 1 is the average itself. *)
Lemma unit_factor_exact (average : number) :
  le (Int 20) average ->
  le average (mul (Int 1) (max (Int 20) average)).
Proof.
  intros Hge. unfold le. unfold max, gtb.
  destruct (ltb (Int 20) average) eqn:Hlt.
  - destruct average as [z|q].
    + rewrite to_Q_mul_int. rewrite Qmult_1_l. apply Qle_refl.
    + rewrite (mul_pow2_float 0 q) by lia.
      change (inject_Z (2 ^ 0)) with 1%Q. rewrite Qmult_1_l. apply Qle_refl.
  - apply ltb_ge in Hlt. exact Hlt.
Qed.

(** X8: a daily average at or above the floor of 20, classified against
    the "cards" table built from that same average, always gets the class
    "rh-col15": it sits exactly on the threshold of factor 1. *)
Theorem average_class_above_floor (average : number) :
  le (Int 20) average ->
  exists cards,
    local_stat_levels (_get_dynamic_legends average).1 !! "cards" = Some cards
    /\ classify average cards = Ok "rh-col15".
Proof.
  intros Hge. eexists. split; [apply local_stat_levels_cards|].
  unfold classify. simpl item. unfold res_bind. f_equal.
  set (avg := max (Int 20) average).
  change (zip (_get_dynamic_legends average).1 css_colors)
    with ([ (Int 0, "rh-col0");
            (mul (Float (1 # 8)) avg, "rh-col11");
            (mul (Float (1 # 4)) avg, "rh-col12");
            (mul (Float (1 # 2)) avg, "rh-col13");
            (mul (Float (3 # 4)) avg, "rh-col14") ]
          ++ (mul (Int 1) avg, "rh-col15")
          :: [ (mul (Float (5 # 4)) avg, "rh-col16");
               (mul (Float (3 # 2)) avg, "rh-col17");
               (mul (Int 2) avg, "rh-col18");
               (mul (Int 4) avg, "rh-col19") ]).
  apply scan_levels_match.
  - constructor.
    { unfold below, lt, le in *. simpl.
      eapply Qlt_le_trans; [|exact Hge]. reflexivity. }
    repeat (constructor;
            [apply scaled_below_average;
             [ apply Qle_bool_iff; vm_compute; reflexivity
             | apply Qlt_alt; vm_compute; reflexivity
             | exact Hge ]|]).
    constructor.
  - subst avg. now apply unit_factor_exact.
Qed.

Lemma average_class_above_floor_witness :
  exists cards,
    local_stat_levels (_get_dynamic_legends (Int 40)).1 !! "cards" = Some cards
    /\ classify (Int 40) cards = Ok "rh-col15".
Proof.
  refine (average_class_above_floor (Int 40) _).
  unfold le. simpl. discriminate.
Defined.

(** ** The stats element *)

Section StatsElm.

Context `{Host}.

Lemma class_text_key (a b : string) : "class_" +:+ a <> "text_" +:+ b.
Proof. simpl. discriminate. Qed.

Lemma class_key_inj (a b : string) : "class_" +:+ a = "class_" +:+ b -> a = b.
Proof. intros Heq. simpl in Heq. injection Heq as Heq. exact Heq. Qed.

Lemma text_key_inj (a b : string) : "text_" +:+ a = "text_" +:+ b -> a = b.
Proof. intros Heq. simpl in Heq. injection Heq as Heq. exact Heq. Qed.

Lemma stats_entry_inv (tables : gmap string (list (number * string)))
    (fd fd1 : gmap string label) (name : string) (st : stat) :
  stats_entry tables fd (name, st) = Ok fd1 ->
  exists levels unit,
    tables !! s_type st = Some levels
    /\ stat_units !! s_type st = Some unit
    /\ fd1 = <["text_" +:+ name := _maybe_pluralize (s_value st) unit]>
               (<["class_" +:+ name :=
                    LStr (scan_levels "rh-col0" (s_value st) levels)]> fd).
Proof.
  unfold stats_entry, subscript, classify. simpl.
  destruct (tables !! s_type st) as [levels|]; [|discriminate]. simpl.
  destruct (stat_units !! s_type st) as [unit|]; [|discriminate]. simpl.
  intros [= <-]. now exists levels, unit.
Qed.

Lemma stats_entry_known (tables : gmap string (list (number * string)))
    (fd : gmap string label) (entry : string * stat) :
  is_Some (tables !! s_type entry.2) ->
  is_Some (stat_units !! s_type entry.2) ->
  exists fd1, stats_entry tables fd entry = Ok fd1.
Proof.
  destruct entry as [name st]. intros [levels Hl] [unit Hu].
  unfold stats_entry, subscript, classify. simpl in *.
  rewrite Hl. simpl. rewrite Hu. simpl. now eexists.
Qed.

Lemma stats_entry_unknown (tables : gmap string (list (number * string)))
    (fd : gmap string label) (name : string) (st : stat) :
  tables !! s_type st = None ->
  stats_entry tables fd (name, st) = Raise (KeyError (s_type st)).
Proof.
  intros Hnone. unfold stats_entry, subscript. simpl. now rewrite Hnone.
Qed.

Lemma stats_loop_cons (tables : gmap string (list (number * string)))
    (fd : gmap string label) (entry : string * stat)
    (rest : list (string * stat)) :
  stats_loop tables fd (entry :: rest)
  = match stats_entry tables fd entry with
    | Ok fd1 => stats_loop tables fd1 rest
    | Raise e => Raise e
    end.
Proof. reflexivity. Qed.

Lemma stats_loop_ok (tables : gmap string (list (number * string)))
    (fd : gmap string label) (entries : list (string * stat)) :
  Forall (fun entry => is_Some (tables !! s_type entry.2)
                       /\ is_Some (stat_units !! s_type entry.2)) entries ->
  exists fd', stats_loop tables fd entries = Ok fd'.
Proof.
  intros Hall. revert fd.
  induction Hall as [|entry rest [Hl Hu] _ IH]; intros fd.
  - now eexists.
  - rewrite stats_loop_cons.
    destruct (stats_entry_known tables fd entry Hl Hu) as [fd1 ->].
    apply IH.
Qed.

Lemma stats_loop_frame (tables : gmap string (list (number * string)))
    (fd fd' : gmap string label) (entries : list (string * stat))
    (key : string) :
  stats_loop tables fd entries = Ok fd' ->
  (forall name, name ∈ entries.*1 ->
     key <> "class_" +:+ name /\ key <> "text_" +:+ name) ->
  fd' !! key = fd !! key.
Proof.
  revert fd. induction entries as [|[name st] rest IH]; intros fd.
  - now intros [= ->].
  - rewrite stats_loop_cons.
    destruct (stats_entry tables fd (name, st)) as [fd1|e] eqn:Hentry;
      [|discriminate].
    intros Hloop Hkey.
    apply stats_entry_inv in Hentry as (levels & unit & _ & _ & ->).
    rewrite (IH _ Hloop).
    + destruct (Hkey name) as [Hc Ht]; [apply list_elem_of_here|].
      now rewrite !lookup_insert_ne by congruence.
    + intros n Hn. apply Hkey. now apply list_elem_of_further.
Qed.

Lemma stats_loop_entries (tables : gmap string (list (number * string)))
    (fd fd' : gmap string label) (entries : list (string * stat)) :
  stats_loop tables fd entries = Ok fd' ->
  NoDup entries.*1 ->
  forall name st,
    (name, st) ∈ entries ->
    exists levels unit,
      tables !! s_type st = Some levels
      /\ stat_units !! s_type st = Some unit
      /\ fd' !! ("class_" +:+ name)
         = Some (LStr (scan_levels "rh-col0" (s_value st) levels))
      /\ fd' !! ("text_" +:+ name)
         = Some (_maybe_pluralize (s_value st) unit).
Proof.
  revert fd. induction entries as [|[n0 st0] rest IH]; intros fd.
  - intros _ _ name st Hin. inversion Hin.
  - rewrite stats_loop_cons.
    destruct (stats_entry tables fd (n0, st0)) as [fd1|e] eqn:Hentry;
      [|discriminate].
    rewrite fmap_cons. intros Hloop [Hfresh Hnodup]%NoDup_cons name st Hin.
    simpl in Hfresh.
    apply elem_of_cons in Hin as [[= -> ->]|Hin].
    + apply stats_entry_inv in Hentry as (levels & unit & Hl & Hu & ->).
      exists levels, unit. split; [assumption|]. split; [assumption|].
      assert (Hother : forall key,
                 (key = "class_" +:+ n0 \/ key = "text_" +:+ n0) ->
                 forall n, n ∈ rest.*1 ->
                   key <> "class_" +:+ n /\ key <> "text_" +:+ n).
      { intros key Hk n Hn. split; intros ->; destruct Hk as [Hk|Hk];
          first [ apply class_key_inj in Hk; congruence
                | apply text_key_inj in Hk; congruence
                | exact (class_text_key _ _ Hk)
                | exact (class_text_key _ _ (eq_sym Hk)) ]. }
      split.
      * rewrite (stats_loop_frame _ _ _ _ _ Hloop) by (apply Hother; now left).
        rewrite lookup_insert_ne by (intros Heq; symmetry in Heq;
                                     now apply class_text_key in Heq).
        apply lookup_insert_eq.
      * rewrite (stats_loop_frame _ _ _ _ _ Hloop) by (apply Hother; now right).
        apply lookup_insert_eq.
    + now apply (IH fd1).
Qed.

Lemma known_type_has_table (dynamic_legend : list number) (stype : string) :
  stype ∈ ["cards"; "streak"; "percentage"] ->
  is_Some (local_stat_levels dynamic_legend !! stype)
  /\ is_Some (stat_units !! stype).
Proof.
  intros Hin. repeat (apply elem_of_cons in Hin as [->|Hin]).
  - rewrite local_stat_levels_cards. split; now eexists.
  - rewrite local_stat_levels_static, stat_levels_streak by discriminate.
    split; now eexists.
  - rewrite local_stat_levels_static, stat_levels_percentage by discriminate.
    split; now eexists.
  - inversion Hin.
Qed.

Lemma unknown_type_has_no_table (dynamic_legend : list number)
    (stype : string) :
  stype ∉ ["cards"; "streak"; "percentage"] ->
  local_stat_levels dynamic_legend !! stype = None.
Proof.
  intros Hnot.
  destruct (local_stat_levels dynamic_legend !! stype) as [levels|] eqn:Hget;
    [|reflexivity].
  exfalso. apply Hnot.
  apply local_stat_levels_inv in Hget as [[-> _]|[[-> _]|[-> _]]];
    repeat first [apply list_elem_of_here | apply list_elem_of_further].
Qed.

(** X9: when every stat of the snapshot has one of the three known types
    (and the names are distinct, as the keys of a dict are), the loop of
    the stats element raises nothing and hands the template, for every
    stat, its class under "class_<name>" (the class the classifier gives
    its value in the table of its type) and its label under
    "text_<name>" (its value pluralized with the unit of its type). *)
Theorem stats_elm_known_types (data : snapshot)
    (dynamic_legend : list number) :
  Forall (fun entry => s_type entry.2 ∈ ["cards"; "streak"; "percentage"])
    (stats data) ->
  NoDup (stats data).*1 ->
  exists format_dict,
    stats_loop (local_stat_levels dynamic_legend) ∅ (stats data)
    = Ok format_dict
    /\ _generate_stats_elm data dynamic_legend = html_streak format_dict
    /\ forall name st,
         (name, st) ∈ stats data ->
         exists levels unit css_class,
           local_stat_levels dynamic_legend !! s_type st = Some levels
           /\ stat_units !! s_type st = Some unit
           /\ classify (s_value st) levels = Ok css_class
           /\ format_dict !! ("class_" +:+ name) = Some (LStr css_class)
           /\ format_dict !! ("text_" +:+ name)
              = Some (_maybe_pluralize (s_value st) unit).
Proof.
  intros Hknown Hnodup.
  destruct (stats_loop_ok (local_stat_levels dynamic_legend) ∅ (stats data))
    as [fd Hloop].
  { eapply Forall_impl; [exact Hknown|]. intros entry Hin.
    now apply known_type_has_table. }
  exists fd. split; [assumption|]. split.
  - unfold _generate_stats_elm. now rewrite Hloop.
  - intros name st Hin.
    destruct (stats_loop_entries _ _ _ _ Hloop Hnodup name st Hin)
      as (levels & unit & Hl & Hu & Hc & Ht).
    exists levels, unit, (scan_levels "rh-col0" (s_value st) levels).
    repeat (split; [assumption || reflexivity|]). assumption.
Qed.

(** X10: a stat whose type is none of "cards", "streak" and "percentage"
    makes the stats element raise [KeyError] with that type, provided the
    stats before it have known types; the template is not reached. *)
Theorem stats_elm_unknown_type (data : snapshot)
    (dynamic_legend : list number) (pre post : list (string * stat))
    (name : string) (st : stat) :
  stats data = pre ++ (name, st) :: post ->
  Forall (fun entry => s_type entry.2 ∈ ["cards"; "streak"; "percentage"])
    pre ->
  s_type st ∉ ["cards"; "streak"; "percentage"] ->
  _generate_stats_elm data dynamic_legend = Raise (KeyError (s_type st)).
Proof.
  intros Hstats Hpre Hunknown. unfold _generate_stats_elm. rewrite Hstats.
  assert (Hloop : forall fd,
             stats_loop (local_stat_levels dynamic_legend) fd
               (pre ++ (name, st) :: post)
             = Raise (KeyError (s_type st))).
  { clear Hstats. induction Hpre as [|entry pre Hentry _ IH]; intros fd.
    - rewrite app_nil_l, stats_loop_cons, stats_entry_unknown
        by now apply unknown_type_has_no_table.
      reflexivity.
    - apply (known_type_has_table dynamic_legend) in Hentry as [Hl Hu].
      rewrite <- app_comm_cons, stats_loop_cons.
      destruct (stats_entry_known _ fd entry Hl Hu) as [fd1 ->].
      apply IH. }
  now rewrite Hloop.
Qed.

End StatsElm.

Lemma stats_elm_known_types_witness :
  exists format_dict,
    stats_loop (H:=Sample.host)
      (local_stat_levels (_get_dynamic_legends (Int 40)).1) ∅
      (stats Sample.data)
    = Ok format_dict
    /\ format_dict !! "class_streak_cur" = Some (LStr "rh-col16")
    /\ format_dict !! "text_streak_cur" = Some (LStr "45 days").
Proof.
  destruct (stats_elm_known_types (H:=Sample.host) Sample.data
              (_get_dynamic_legends (Int 40)).1)
    as (fd & Hloop & _ & Hall).
  - repeat (constructor;
            [repeat first [apply list_elem_of_here
                          | apply list_elem_of_further]|]).
    constructor.
  - simpl.
    repeat (apply NoDup_cons_2;
            [intros Hin;
             repeat (apply elem_of_cons in Hin as [Hin|Hin];
                     [discriminate Hin|]);
             inversion Hin|]).
    apply NoDup_nil_2.
  - exists fd. split; [exact Hloop|].
    destruct (Hall "streak_cur" {| s_type := "streak"; s_value := Int 45 |})
      as (levels & unit & css_class & Hl & Hu & Hc & Hclass & Htext).
    { repeat first [apply list_elem_of_here | apply list_elem_of_further]. }
    simpl in Hl, Hu.
    rewrite local_stat_levels_static, stat_levels_streak in Hl by discriminate.
    injection Hl as <-. vm_compute in Hu. injection Hu as <-.
    vm_compute in Hc. injection Hc as <-.
    split; assumption.
Defined.

Lemma stats_elm_unknown_type_witness :
  _generate_stats_elm (H:=Sample.host) Edge.data_bad_type
    (_get_dynamic_legends (Int 40)).1
  = Raise (KeyError "ratio").
Proof.
  refine (stats_elm_unknown_type (H:=Sample.host) Edge.data_bad_type _
            [("activity_daily_avg", {| s_type := "cards"; s_value := Int 40 |})]
            [("streak_cur", {| s_type := "streak"; s_value := Int 45 |})]
            "retention" {| s_type := "ratio"; s_value := Int 3 |} _ _ _).
  - reflexivity.
  - constructor; [simpl; apply list_elem_of_here | constructor].
  - simpl. intros Hin.
    repeat (apply elem_of_cons in Hin as [Hin|Hin]; [discriminate Hin|]).
    inversion Hin.
Defined.

(** ** Exceptions and the cache *)

Section GenerateEdge.

Context `{Host}.

Lemma stat_value_missing (data : snapshot) (name : string) :
  assoc name (stats data) = None ->
  stat_value data name = Raise (KeyError name).
Proof.
  intros Hnone. unfold stat_value, subscript_items. now rewrite Hnone.
Qed.

Lemma stat_value_present (data : snapshot) (name : string) :
  is_Some (assoc name (stats data)) ->
  exists value, stat_value data name = Ok value.
Proof.
  intros [st Hst]. unfold stat_value, subscript_items. rewrite Hst.
  now eexists.
Qed.

Lemma render_sections_no_average (self : HeatmapCreator) (view : string)
    (data : snapshot) :
  assoc "activity_daily_avg" (stats data) = None ->
  render_sections self view data = Raise (KeyError "activity_daily_avg").
Proof.
  intros Hnone. unfold render_sections.
  now rewrite (stat_value_missing _ _ Hnone).
Qed.

Lemma render_sections_no_view (self : HeatmapCreator) (view : string)
    (data : snapshot) :
  is_Some (assoc "activity_daily_avg" (stats data)) ->
  display (profile (config self)) !! view = None ->
  render_sections self view data = Raise (KeyError view).
Proof.
  intros [average Havg]%stat_value_present Hview. unfold render_sections.
  rewrite Havg. unfold res_bind at 1.
  destruct (_get_dynamic_legends average) as [stats_legend heatmap_legend].
  unfold subscript. now rewrite Hview.
Qed.

Lemma render_sections_no_mode (self : HeatmapCreator) (view : string)
    (data : snapshot) :
  is_Some (assoc "activity_daily_avg" (stats data)) ->
  display (profile (config self)) !! view = Some true ->
  heatmap_modes !! mode (synced (config self)) = None ->
  render_sections self view data
  = Raise (KeyError (mode (synced (config self)))).
Proof.
  intros [average Havg]%stat_value_present Hview Hmode.
  unfold render_sections. rewrite Havg. unfold res_bind at 1.
  destruct (_get_dynamic_legends average) as [stats_legend heatmap_legend].
  unfold subscript at 1. rewrite Hview. unfold res_bind at 1.
  unfold _generate_heatmap_elm, subscript at 1. now rewrite Hmode.
Qed.

Lemma generate_render_raises (self : HeatmapCreator) (view : string)
    (limhist limfcst : option Z) (data : snapshot) (mw : mw_state)
    (e : error) :
  get_data self limhist limfcst = Ok (Some data) ->
  render_sections self view data = Raise e ->
  generate self view limhist limfcst mw = (Raise e, mw).
Proof.
  intros Hdata Hr. rewrite (generate_with_data _ _ _ _ data mw Hdata).
  now rewrite Hr.
Qed.

(** X11: exceptions raised before the cache write leave the cache as it
    was, in whole mode too, and come in a fixed order: a failure of the
    reporter is passed on as it is; with data, a missing
    "activity_daily_avg" raises [KeyError] for it; else a view the display
    preferences do not list raises [KeyError] for the view; else, with the
    heatmap displayed, a mode without preset raises [KeyError] for the
    mode. *)
Theorem generate_raises_before_write (self : HeatmapCreator) (view : string)
    (limhist limfcst : option Z) (mw : mw_state) :
  (forall e,
      get_data self limhist limfcst = Raise e ->
      generate self view limhist limfcst mw = (Raise e, mw))
  /\ (forall data,
      get_data self limhist limfcst = Ok (Some data) ->
      (assoc "activity_daily_avg" (stats data) = None ->
       generate self view limhist limfcst mw
       = (Raise (KeyError "activity_daily_avg"), mw))
      /\ (is_Some (assoc "activity_daily_avg" (stats data)) ->
          display (profile (config self)) !! view = None ->
          generate self view limhist limfcst mw = (Raise (KeyError view), mw))
      /\ (is_Some (assoc "activity_daily_avg" (stats data)) ->
          display (profile (config self)) !! view = Some true ->
          heatmap_modes !! mode (synced (config self)) = None ->
          generate self view limhist limfcst mw
          = (Raise (KeyError (mode (synced (config self)))), mw))).
Proof.
  split.
  - intros e Hdata. unfold generate, bind, lift. now rewrite Hdata.
  - intros data Hdata. split; [|split].
    + intros Hnone. apply (generate_render_raises _ _ _ _ data); [assumption|].
      now apply render_sections_no_average.
    + intros Havg Hview.
      apply (generate_render_raises _ _ _ _ data); [assumption|].
      now apply render_sections_no_view.
    + intros Havg Hview Hmode.
      apply (generate_render_raises _ _ _ _ data); [assumption|].
      now apply render_sections_no_mode.
Qed.

(** X12: in whole mode the cache write can fail half way.  When the
    sections were rendered but the snapshot has no "streak_max", the call
    raises [KeyError] for it and the cache is untouched; when it has
    "streak_max" but no "streak_cur", the call raises [KeyError] for
    "streak_cur" and the cache already holds the new maximum, its other
    two fields unchanged. *)
Theorem failed_save_keeps_partial_write (self : HeatmapCreator)
    (view : string) (limhist limfcst : option Z) (data : snapshot)
    (mw : mw_state) (sections : string * string * list string) :
  whole self = true ->
  get_data self limhist limfcst = Ok (Some data) ->
  render_sections self view data = Ok sections ->
  (assoc "streak_max" (stats data) = None ->
   generate self view limhist limfcst mw = (Raise (KeyError "streak_max"), mw))
  /\ (forall streak_max,
        stat_value data "streak_max" = Ok streak_max ->
        assoc "streak_cur" (stats data) = None ->
        generate self view limhist limfcst mw
        = (Raise (KeyError "streak_cur"),
           {| _hmStreakMax := Some streak_max;
              _hmStreakCur := _hmStreakCur mw;
              _hmActivityDailyAvg := _hmActivityDailyAvg mw |})).
Proof.
  intros Hwhole Hdata Hr.
  rewrite (generate_with_data _ _ _ _ data mw Hdata), Hr, Hwhole.
  destruct sections as [[heatmap stats] classes]. cbv zeta.
  rewrite save_current_perf_run. split.
  - intros Hnone. now rewrite (stat_value_missing _ _ Hnone).
  - intros streak_max Hmax Hnone.
    now rewrite Hmax, (stat_value_missing _ _ Hnone).
Qed.

(** X13: with the view's display preference and "always show stats" both
    off, neither section is computed: whatever the stat types and the mode
    are, lines 106-121 succeed with two empty sections and both markers
    after the four classes, and outside whole mode [generate] returns the
    main element with empty content and leaves the cache alone. *)
Theorem suppressed_sections_not_computed (self : HeatmapCreator)
    (view : string) (limhist limfcst : option Z) (data : snapshot)
    (mw : mw_state) :
  get_data self limhist limfcst = Ok (Some data) ->
  is_Some (assoc "activity_daily_avg" (stats data)) ->
  display (profile (config self)) !! view = Some false ->
  statsvis (profile (config self)) = false ->
  render_sections self view data
  = Ok ("", "",
        _get_css_classes self view
          ++ ["rh-disable-heatmap"; "rh-disable-stats"])
  /\ (whole self = false ->
      generate self view limhist limfcst mw
      = (Ok (html_main_element ""
               (String.concat " "
                  (_get_css_classes self view
                     ++ ["rh-disable-heatmap"; "rh-disable-stats"]))),
         mw)).
Proof.
  intros Hdata [average Havg]%stat_value_present Hview Hstats.
  assert (Hr : render_sections self view data
               = Ok ("", "",
                     _get_css_classes self view
                       ++ ["rh-disable-heatmap"; "rh-disable-stats"])).
  { unfold render_sections. rewrite Havg. unfold res_bind at 1.
    destruct (_get_dynamic_legends average) as [stats_legend heatmap_legend].
    unfold subscript. rewrite Hview, Hstats. unfold res_bind.
    cbn [orb]. now rewrite <- app_assoc. }
  split; [exact Hr|].
  intros Hwhole.
  now rewrite (generate_with_data _ _ _ _ data mw Hdata), Hr, Hwhole.
Qed.

End GenerateEdge.

Lemma generate_raises_before_write_witness :
  generate (H:=Sample.host) (Sample.creator true true true) "overview"
    None None Edge.mw1
  = (Raise (KeyError "overview"), Edge.mw1).
Proof.
  refine (proj1 (proj2 (proj2
            (generate_raises_before_write (H:=Sample.host)
               (Sample.creator true true true) "overview" None None Edge.mw1)
            Sample.data eq_refl)) _ _).
  - now eexists.
  - reflexivity.
Defined.

Lemma failed_save_keeps_partial_write_witness :
  generate (H:=Sample.host)
    (Edge.creator_of (Sample.conf false false) true Edge.data_no_cur)
    "deckbrowser" None None Edge.mw1
  = (Raise (KeyError "streak_cur"),
     {| _hmStreakMax := Some (Int 120);
        _hmStreakCur := Some (Int 3);
        _hmActivityDailyAvg := Some (Int 12) |}).
Proof.
  refine (proj2 (failed_save_keeps_partial_write (H:=Sample.host)
                   (Edge.creator_of (Sample.conf false false) true
                      Edge.data_no_cur)
                   "deckbrowser" None None Edge.data_no_cur Edge.mw1 _
                   eq_refl eq_refl eq_refl) (Int 120) eq_refl eq_refl).
Defined.

Lemma suppressed_sections_not_computed_witness :
  render_sections (H:=Sample.host)
    (Edge.creator_of (Edge.conf_unknown_mode false false) false
       Edge.data_bad_type)
    "deckbrowser" Edge.data_bad_type
  = Ok ("", "",
        [ "rh-platform-linux"; "rh-theme-lime"; "rh-mode-decade";
          "rh-view-deckbrowser"; "rh-disable-heatmap"; "rh-disable-stats" ]).
Proof.
  refine (proj1 (suppressed_sections_not_computed (H:=Sample.host)
                   (Edge.creator_of (Edge.conf_unknown_mode false false) false
                      Edge.data_bad_type)
                   "deckbrowser" None None Edge.data_bad_type Edge.mw1
                   eq_refl _ eq_refl eq_refl)).
  now eexists.
Defined.
